(** * SAIF rejection-email generator: a verified model

    A shallow embedding of [saif_rejection_agent.py]: the template
    catalog [REJECTION_TEMPLATES], the feedback-paragraph generator,
    the closing-wish selector and the email composer, followed by the
    properties of the composed email. *)

From Stdlib Require Import NArith List String Ascii Bool Lia.
From Stdlib Require Import ZArith.
Import ListNotations.
Local Open Scope N_scope.
Local Open Scope list_scope.

(** ** Python strings

    A Python [str] is a sequence of Unicode code points; a code point is
    kept as an [N].  String literals of the source are pure ASCII and are
    written with [lit]. *)

Module PyStr.

Definition char : Set := N.
Definition str : Set := list char.

Definition lit (s : string) : str :=
  map N_of_ascii (list_ascii_of_string s).

(** ["\n"] *)
Definition nl : str := [10].

Fixpoint str_eqb (s t : str) : bool :=
  match s, t with
  | [], [] => true
  | c :: s', d :: t' => (c =? d) && str_eqb s' t'
  | _, _ => false
  end.

(** [s.startswith(p)] *)
Fixpoint startswith (s p : str) {struct p} : bool :=
  match p, s with
  | [], _ => true
  | c :: p', d :: s' => (c =? d) && startswith s' p'
  | _ :: _, [] => false
  end.

(** [sub in s] *)
Fixpoint str_in (sub s : str) {struct s} : bool :=
  startswith s sub ||
  match s with
  | [] => false
  | _ :: s' => str_in sub s'
  end.

(** *** Case mapping

    [str.lower()] and [str.upper()] apply the Unicode full case
    mappings.  Their action on ASCII is the usual one.  Outside ASCII
    the tables below list every code point whose image contains an
    ASCII character: [U+0130] and [U+212A] for [lower]; the sharp s,
    the dotless i, the long s, seven letters that become an ASCII
    capital and a mark, and the Latin ligatures for [upper].  Every
    other code point is sent by Python to non-ASCII code points only;
    it is left in place here, which no test against an ASCII keyword
    can tell apart (see [lower_model_adequate]).  [upper] is not used
    by the program; the properties apply it to ASCII text and to the
    dotless i only, where the table is exact. *)

Definition is_ascii (c : char) : bool := c <? 128.
Definition is_ascii_upper (c : char) : bool := (65 <=? c) && (c <=? 90).
Definition is_ascii_lower (c : char) : bool := (97 <=? c) && (c <=? 122).

Definition lower_char (c : char) : str :=
  if is_ascii_upper c then [c + 32]
  else if c =? 0x130 then [0x69; 0x307]
  else if c =? 0x212A then [0x6B]
  else [c].

Definition lower (s : str) : str := flat_map lower_char s.

Definition upper_special : list (char * str) :=
  [ (0xDF, [0x53; 0x53]);     (0x131, [0x49]);
    (0x149, [0x2BC; 0x4E]);   (0x17F, [0x53]);
    (0x1F0, [0x4A; 0x30C]);   (0x1E96, [0x48; 0x331]);
    (0x1E97, [0x54; 0x308]);  (0x1E98, [0x57; 0x30A]);
    (0x1E99, [0x59; 0x30A]);  (0x1E9A, [0x41; 0x2BE]);
    (0xFB00, [0x46; 0x46]);   (0xFB01, [0x46; 0x49]);
    (0xFB02, [0x46; 0x4C]);   (0xFB03, [0x46; 0x46; 0x49]);
    (0xFB04, [0x46; 0x46; 0x4C]);
    (0xFB05, [0x53; 0x54]);   (0xFB06, [0x53; 0x54]) ].

Fixpoint assoc_char (c : char) (t : list (char * str)) : option str :=
  match t with
  | [] => None
  | (k, v) :: t' => if c =? k then Some v else assoc_char c t'
  end.

Definition upper_char (c : char) : str :=
  if is_ascii_lower c then [c - 32]
  else match assoc_char c upper_special with
       | Some u => u
       | None => [c]
       end.

Definition upper (s : str) : str := flat_map upper_char s.

End PyStr.
Import PyStr.

Arguments lit s%_string.

(** ** Data model *)

(** [@dataclass class Application] *)
Record Application : Set := mkApplication {
  company_name : str;
  contact_email : str;
  founder_names : option str;
  description : str;
  rejection_reasons : list str
}.

(** An entry of [REJECTION_TEMPLATES]: a dict with the two keys
    ["summary"] and ["template"]. *)
Record RejectionTemplate : Set := {
  summary : str;
  template : str
}.

(** A dict with [str] keys, in declaration order; [dict_get] is the
    lookup behind both [k in d] and [d[k]]. *)
Fixpoint dict_get {V : Type} (k : str) (d : list (str * V)) : option V :=
  match d with
  | [] => None
  | (k', v) :: d' => if str_eqb k k' then Some v else dict_get k d'
  end.

(** ** The template catalog *)

Definition tpl_not_ai_safety : RejectionTemplate :=
  {| summary := lit "Product is not focused on AI safety";
     template := lit "Your work on {product_focus} is meaningful and clearly impactful. However, {company_name} is focused on {actual_focus} rather than on technologies that directly improve safety and security in the presence of risks created by advanced AI systems. Because of this, the project falls outside the scope of SAIF's investment mandate." |}.

Definition tpl_early_stage_no_team : RejectionTemplate :=
  {| summary := lit "Too early stage with incomplete founding team";
     template := lit "{product_area} is an important direction, and we can see why this category will matter as agentic systems become more widely deployed. However, {company_name} is still at a very early stage, and we generally look for teams with a committed founding group, clear technical ownership, and a more defined product trajectory before engaging as investors. Given the current state of the team and the work, we don't believe this is the right fit for SAIF at this time." |}.

Definition tpl_no_tech_cofounder : RejectionTemplate :=
  {| summary := lit "Lacks technical founding leadership";
     template := lit "{problem_statement} is an important problem, and we can see the appeal of a product that {product_appeal}. However, SAIF typically looks for teams with strong technical founding leadership given the complexity and competitiveness of building safety-critical AI systems. At this stage, and without a technical cofounder driving the core system, we don't believe {company_name} is the right fit for SAIF's focus." |}.

Definition tpl_too_conceptual : RejectionTemplate :=
  {| summary := lit "Approach is too conceptual or lacks clear technical pathway";
     template := lit "Your proposal explores ambitious ideas around {topic_area}. However, the approach as described is highly conceptual, and it's difficult for us to assess a clear technical pathway, feasibility, or near-term product direction. SAIF's focus is on companies building practical, deployable technologies that can be validated and scaled to improve safety and security in real-world AI systems, and {company_name} does not currently align with that focus." |}.

Definition tpl_safety_angle_unclear : RejectionTemplate :=
  {| summary := lit "Safety impact is not clear or central to the product";
     template := lit "{company_name}'s approach to {product_description} is thoughtful, and we can see how tools like this could be valuable for {target_users}. However, SAIF's focus is on companies building products that directly improve safety and security in the presence of advanced AI systems, and we are not yet convinced that {company_name}'s safety impact is sufficiently clear or central to the product. In addition, we typically look for teams with a full-time founder." |}.

Definition tpl_not_for_profit : RejectionTemplate :=
  {| summary := lit "Not a for-profit company with scalable business model";
     template := lit "We appreciate the work you've put into {company_name} and your commitment to developing {mission}. However, SAIF is structured specifically to invest in for-profit companies with scalable business models. As {company_name} is {structure} and won't be offering equity to investors, we do not see a clear path for sufficient venture funding to be raised. Additionally, it is unclear to us that {distribution_concern}." |}.

Definition tpl_general_not_aligned : RejectionTemplate :=
  {| summary := lit "General non-alignment with SAIF focus";
     template := lit "We appreciate your ambition to {mission}. However, {company_name} appears primarily focused on {actual_focus}, which, while potentially impactful, are not aligned with SAIF's mission. Our focus is specifically centered on companies building products that directly improve safety and security in the presence of threats caused or created by AI systems. Given this focus, {category} sit outside the scope of what we fund." |}.

Definition REJECTION_TEMPLATES : list (str * RejectionTemplate) :=
  [ (lit "not_ai_safety", tpl_not_ai_safety);
    (lit "early_stage_no_team", tpl_early_stage_no_team);
    (lit "no_tech_cofounder", tpl_no_tech_cofounder);
    (lit "too_conceptual", tpl_too_conceptual);
    (lit "safety_angle_unclear", tpl_safety_angle_unclear);
    (lit "not_for_profit", tpl_not_for_profit);
    (lit "general_not_aligned", tpl_general_not_aligned) ].

(** ** The generator *)

(** [generate_feedback_paragraph(application)] *)
Definition generate_feedback_paragraph (application : Application) : str :=
  match rejection_reasons application with
  | [] =>
      lit "While we appreciate your submission, "
        ++ company_name application
        ++ lit " does not currently align with our investment criteria."
  | primary_reason :: _ =>
      match dict_get primary_reason REJECTION_TEMPLATES with
      | Some template_info =>
          lit "[TEMPLATE: " ++ summary template_info ++ lit "]" ++ nl
            ++ template template_info
      | None =>
          lit "The project does not currently align with SAIF's focus on companies building practical technologies that directly improve safety and security in real-world AI systems."
      end
  end.

(** [get_closing_wish(application)] *)
Definition get_closing_wish (application : Application) : str :=
  let description_lower := lower (description application) in
  if str_in (lit "building") description_lower
     || str_in (lit "develop") description_lower
  then lit "building the company"
  else if str_in (lit "platform") description_lower
  then lit "developing the platform"
  else if str_in (lit "research") description_lower
  then lit "developing your ideas"
  else if str_in (lit "product") description_lower
  then lit "building and refining the product"
  else lit "developing your ideas".

(** [generate_rejection_email(application)] *)
Definition generate_rejection_email (application : Application) : str :=
  let greeting :=
    match founder_names application with
    | Some (c :: n) => lit "Hi " ++ (c :: n) ++ lit ","
    | Some [] | None => lit "Hi there,"
    end in
  let opening :=
    lit "Thanks very much for expressing interest in being part of SAIF and our efforts to create a better future with AI. Unfortunately at this time we don't think that "
      ++ company_name application
      ++ lit " fits within the criteria we are using for our fund." in
  let feedback := generate_feedback_paragraph application in
  let closing :=
    lit "We wish you the best as you continue "
      ++ get_closing_wish application ++ lit "."
      ++ nl ++ nl ++ lit "Best," ++ nl ++ lit "The SAIF Team" in
  greeting ++ nl ++ nl ++ opening ++ nl ++ nl ++ feedback ++ nl ++ nl ++ closing.

(** ** The generator as a computation on the interpreter state

    The functions above read one module-level name, [REJECTION_TEMPLATES],
    and the script writes to standard output elsewhere ([print] in [main]).
    Here the same code is written over an explicit state holding the value
    bound to the global and the text printed so far, so that "reads only,
    prints nothing" is a statement about the code and not a convention of
    the model. *)

Module Effects.

Record World : Set := mkWorld {
  global_REJECTION_TEMPLATES : list (str * RejectionTemplate);
  stdout : list str
}.

(** Exceptions the code below can raise. *)
Inductive Exn : Set :=
| KeyError (key : str).

Inductive Outcome (A : Type) : Type :=
| Returned (a : A)
| Raised (e : Exn).
Arguments Returned {A} a.
Arguments Raised {A} e.

Definition Py (A : Type) : Type := World -> Outcome A * World.

Definition ret {A : Type} (a : A) : Py A := fun w => (Returned a, w).

Definition raise {A : Type} (e : Exn) : Py A := fun w => (Raised e, w).

Definition bind {A B : Type} (m : Py A) (k : A -> Py B) : Py B :=
  fun w =>
    match m w with
    | (Returned a, w') => k a w'
    | (Raised e, w') => (Raised e, w')
    end.

Notation "x <- m ;; k" := (bind m (fun x => k))
  (at level 61, m at next level, right associativity).

(** Evaluation of the global name [REJECTION_TEMPLATES]. *)
Definition load_REJECTION_TEMPLATES : Py (list (str * RejectionTemplate)) :=
  fun w => (Returned (global_REJECTION_TEMPLATES w), w).

(** [d[k]] *)
Definition subscript {V : Type} (d : list (str * V)) (k : str) : Py V :=
  match dict_get k d with
  | Some v => ret v
  | None => raise (KeyError k)
  end.

(** [k in d] *)
Definition contains_key {V : Type} (k : str) (d : list (str * V)) : bool :=
  match dict_get k d with
  | Some _ => true
  | None => false
  end.

(** [print(s)] *)
Definition print (s : str) : Py unit :=
  fun w =>
    (Returned tt, mkWorld (global_REJECTION_TEMPLATES w) (stdout w ++ [s])).

Definition generate_feedback_paragraph (application : Application) : Py str :=
  match rejection_reasons application with
  | [] =>
      ret (lit "While we appreciate your submission, "
             ++ company_name application
             ++ lit " does not currently align with our investment criteria.")
  | primary_reason :: _ =>
      templates <- load_REJECTION_TEMPLATES ;;
      if contains_key primary_reason templates then
        templates' <- load_REJECTION_TEMPLATES ;;
        template_info <- subscript templates' primary_reason ;;
        ret (lit "[TEMPLATE: " ++ summary template_info ++ lit "]" ++ nl
               ++ template template_info)
      else
        ret (lit "The project does not currently align with SAIF's focus on companies building practical technologies that directly improve safety and security in real-world AI systems.")
  end.

Definition generate_rejection_email (application : Application) : Py str :=
  let greeting :=
    match founder_names application with
    | Some (c :: n) => lit "Hi " ++ (c :: n) ++ lit ","
    | Some [] | None => lit "Hi there,"
    end in
  let opening :=
    lit "Thanks very much for expressing interest in being part of SAIF and our efforts to create a better future with AI. Unfortunately at this time we don't think that "
      ++ company_name application
      ++ lit " fits within the criteria we are using for our fund." in
  feedback <- generate_feedback_paragraph application ;;
  let closing :=
    lit "We wish you the best as you continue "
      ++ get_closing_wish application ++ lit "."
      ++ nl ++ nl ++ lit "Best," ++ nl ++ lit "The SAIF Team" in
  ret (greeting ++ nl ++ nl ++ opening ++ nl ++ nl ++ feedback
         ++ nl ++ nl ++ closing).

(** The command-line branch of [main], from the [Application] on:
    [print(generate_rejection_email(app))]. *)
Definition main_print (app : Application) : Py unit :=
  email <- generate_rejection_email app ;;
  print email.

(** Two invocations in a row on one input. *)
Definition compose_twice (application : Application) : Py (str * str) :=
  first <- generate_rejection_email application ;;
  second <- generate_rejection_email application ;;
  ret (first, second).

(** The state once the module body has run. *)
Definition initial_world : World := mkWorld REJECTION_TEMPLATES [].

End Effects.

(** ** Vocabulary of the properties *)

(** [sub] occurs in [s] as a contiguous block. *)
Definition Substring (sub s : str) : Prop :=
  exists pre post, s = pre ++ sub ++ post.

(** [s] begins with [p]. *)
Definition Prefix (p s : str) : Prop := exists rest, s = p ++ rest.

(** [s] ends with [p]. *)
Definition Suffix (p s : str) : Prop := exists front, s = front ++ p.

(** The closing-wish policy as the specification words it: five rules on
    the lower-cased description, each one applying only when every
    earlier one has failed. *)
Inductive closing_rule (d : str) : str -> Prop :=
| rule_building :
    Substring (lit "building") d \/ Substring (lit "develop") d ->
    closing_rule d (lit "building the company")
| rule_platform :
    ~ Substring (lit "building") d -> ~ Substring (lit "develop") d ->
    Substring (lit "platform") d ->
    closing_rule d (lit "developing the platform")
| rule_research :
    ~ Substring (lit "building") d -> ~ Substring (lit "develop") d ->
    ~ Substring (lit "platform") d ->
    Substring (lit "research") d ->
    closing_rule d (lit "developing your ideas")
| rule_product :
    ~ Substring (lit "building") d -> ~ Substring (lit "develop") d ->
    ~ Substring (lit "platform") d -> ~ Substring (lit "research") d ->
    Substring (lit "product") d ->
    closing_rule d (lit "building and refining the product")
| rule_default :
    ~ Substring (lit "building") d -> ~ Substring (lit "develop") d ->
    ~ Substring (lit "platform") d -> ~ Substring (lit "research") d ->
    ~ Substring (lit "product") d ->
    closing_rule d (lit "developing your ideas").

(** The phrases of the five rules, in rule order. *)
Definition closing_phrases : list str :=
  [ lit "building the company"; lit "developing the platform";
    lit "developing your ideas"; lit "building and refining the product";
    lit "developing your ideas" ].

(** The keywords the selector looks for. *)
Definition closing_keywords : list str :=
  [ lit "building"; lit "develop"; lit "platform"; lit "research";
    lit "product" ].

(** The sentence returned for a first reason that is not in the catalog. *)
Definition unknown_reason_sentence : str :=
  lit "The project does not currently align with SAIF's focus on companies building practical technologies that directly improve safety and security in real-world AI systems.".

(** The sentence returned when there is no reason at all. *)
Definition no_reason_sentence (company : str) : str :=
  lit "While we appreciate your submission, " ++ company
    ++ lit " does not currently align with our investment criteria.".

(** Two code points that are equal, or the two cases of one ASCII letter. *)
Definition ascii_case_pair (c d : char) : Prop :=
  c = d \/ (is_ascii_upper c = true /\ d = c + 32)
        \/ (is_ascii_upper d = true /\ c = d + 32).

(** Two texts that differ only in the case of ASCII letters. *)
Definition ascii_case_variant (s t : str) : Prop := Forall2 ascii_case_pair s t.

(** [t] is a lower-casing of [s] for a case mapping that agrees with
    [lower_char] wherever ASCII is involved and sends every other code
    point to some non-empty text without ASCII (which may depend on the
    context, as the Greek final sigma does). *)
Inductive lower_image : str -> str -> Prop :=
| lower_image_nil : lower_image [] []
| lower_image_exact c s t :
    lower_image s t -> lower_image (c :: s) (lower_char c ++ t)
| lower_image_other c u s t :
    is_ascii c = false -> c <> 0x130 -> c <> 0x212A ->
    u <> [] -> Forall (fun x => is_ascii x = false) u ->
    lower_image s t -> lower_image (c :: s) (u ++ t).

(** Two texts that no ASCII keyword can tell apart, neither as a prefix
    nor as a substring. *)
Definition ascii_equivalent (t t' : str) : Prop :=
  (forall k, Forall (fun x => is_ascii x = true) k ->
             startswith t k = startswith t' k)
  /\ (forall k, k <> [] -> Forall (fun x => is_ascii x = true) k ->
                str_in k t = str_in k t').

(** Sample applications used to exercise the statements. *)

Definition app_unknown_tag : Application :=
  mkApplication (lit "Acme") (lit "founder@acme.ai") None
    (lit "AI productivity tool") [lit "nonexistent_tag"].

Definition app_no_reason : Application :=
  mkApplication (lit "Acme") (lit "founder@acme.ai") None
    (lit "AI productivity tool") [].

Definition app_not_ai_safety : Application :=
  mkApplication (lit "Acme") (lit "founder@acme.ai") (Some (lit "Ada"))
    (lit "A simple product") [lit "not_ai_safety"; lit "too_conceptual"].

Definition app_building_platform : Application :=
  mkApplication (lit "Acme") (lit "founder@acme.ai") (Some [])
    (lit "We are building a platform") [lit "too_conceptual"].

(** "buıldıng", spelt with the dotless i [U+0131], and its upper-casing. *)
Definition dotless_building : str :=
  [0x62; 0x75; 0x131; 0x6C; 0x64; 0x131; 0x6E; 0x67].

Definition app_dotless : Application :=
  mkApplication (lit "Acme") (lit "founder@acme.ai") None dotless_building [].

Definition app_dotless_upper : Application :=
  mkApplication (lit "Acme") (lit "founder@acme.ai") None
    (upper dotless_building) [].

(** ** The rest of the script: builtins *)

Module PyLib.

(** [c.isspace()], which is also what [strip()] removes. *)
Definition isspace (c : char) : bool :=
  ((0x9 <=? c) && (c <=? 0xD)) || ((0x1C <=? c) && (c <=? 0x20))
  || (c =? 0x85) || (c =? 0xA0) || (c =? 0x1680)
  || ((0x2000 <=? c) && (c <=? 0x200A))
  || (c =? 0x2028) || (c =? 0x2029) || (c =? 0x202F) || (c =? 0x205F)
  || (c =? 0x3000).

(** [s.lstrip()] *)
Fixpoint lstrip (s : str) : str :=
  match s with
  | [] => []
  | c :: s' => if isspace c then lstrip s' else s
  end.

(** [s.rstrip()] *)
Definition rstrip (s : str) : str := rev (lstrip (rev s)).

(** [s.strip()] *)
Definition strip (s : str) : str := rstrip (lstrip s).

(** [s.split(sep)] for a separator of one character; the result is
    never empty. *)
Fixpoint split (sep : char) (s : str) : list str :=
  match s with
  | [] => [[]]
  | c :: s' =>
      if c =? sep then [] :: split sep s'
      else match split sep s' with
           | field :: fields => (c :: field) :: fields
           | [] => [[c]]
           end
  end.

(** [sep.join(l)] *)
Fixpoint join (sep : str) (l : list str) : str :=
  match l with
  | [] => []
  | x :: l' =>
      match l' with
      | [] => x
      | _ :: _ => x ++ sep ++ join sep l'
      end
  end.

(** [s.endswith(p)] *)
Definition endswith (s p : str) : bool := startswith (rev s) (rev p).

(** [s or None] *)
Definition or_None (s : str) : option str :=
  match s with
  | [] => None
  | _ :: _ => Some s
  end.

(** [x or default] for an optional value of a type whose empty value is
    [empty]: [None] and the empty value both give [default]. *)
Definition or_default {A : Type} (is_empty : A -> bool) (x : option A)
    (default : A) : A :=
  match x with
  | Some a => if is_empty a then default else a
  | None => default
  end.

Definition str_empty (s : str) : bool :=
  match s with [] => true | _ :: _ => false end.

Definition list_empty {A : Type} (l : list A) : bool :=
  match l with [] => true | _ :: _ => false end.

(** Exceptions of the interactive front end. *)
Inductive Failure : Set :=
| ValueError
| EOFError
| IndexError.

Inductive Try (A : Type) : Type :=
| Ok (a : A)
| Raise (e : Failure).
Arguments Ok {A} a.
Arguments Raise {A} e.

(** [l[i]], with Python's negative indices; out of range is
    [IndexError]. *)
Definition list_subscript {A : Type} (l : list A) (i : Z) : Try A :=
  let n := Z.of_nat (List.length l) in
  let at_ (k : Z) :=
    match nth_error l (Z.to_nat k) with
    | Some a => Ok a
    | None => Raise IndexError
    end in
  if (0 <=? i)%Z then at_ i
  else if (- n <=? i)%Z then at_ (n + i)%Z
  else Raise IndexError.

(** [enumerate(l, start)] *)
Fixpoint enumerate {A : Type} (l : list A) (start : Z) : list (Z * A) :=
  match l with
  | [] => []
  | a :: l' => (start, a) :: enumerate l' (start + 1)%Z
  end.

End PyLib.
Import PyLib.

(** ** The interactive front end

    [interactive_mode] reads lines from the standard input, builds an
    [Application] and prints its email.  The standard input is the list
    of the lines still to be read, without their line ends; what the
    function prints in between (prompts, banner, menu) has no influence
    on the application and is not kept, except for the menu entries.
    [py_int] stands for the builtin [int] applied to a string, [None]
    being [ValueError]. *)

Module Interactive.

(** A computation that consumes input lines and may raise. *)
Definition Console (A : Type) : Type := list str -> Try A * list str.

Definition ret {A : Type} (a : A) : Console A := fun stdin => (Ok a, stdin).

Definition bind {A B : Type} (m : Console A) (k : A -> Console B)
    : Console B :=
  fun stdin =>
    match m stdin with
    | (Ok a, stdin') => k a stdin'
    | (Raise e, stdin') => (Raise e, stdin')
    end.

Notation "x <- m ;; k" := (bind m (fun x => k))
  (at level 61, m at next level, right associativity).

Definition lift {A : Type} (t : Try A) : Console A := fun stdin => (t, stdin).

(** [input(prompt)]: the next line, or [EOFError] at the end of input. *)
Definition input : Console str :=
  fun stdin =>
    match stdin with
    | [] => (Raise EOFError, [])
    | line :: stdin' => (Ok line, stdin')
    end.

(** The [while True] loop that collects the description lines up to the
    first empty line. *)
Fixpoint read_description_lines (description_lines : list str)
    (stdin : list str) : Try (list str) * list str :=
  match stdin with
  | [] => (Raise EOFError, [])
  | line :: stdin' =>
      if str_eqb line [] then (Ok description_lines, stdin')
      else read_description_lines (description_lines ++ [line]) stdin'
  end.

(** The entries of the menu loop:
    [enumerate(REJECTION_TEMPLATES.items(), 1)]. *)
Definition menu_entries : list (Z * (str * RejectionTemplate)) :=
  enumerate REJECTION_TEMPLATES 1%Z.

(** [[int(x.strip()) - 1 for x in fields if x.strip()]] *)
Fixpoint reason_indices_of (py_int : str -> option Z) (fields : list str)
    : Try (list Z) :=
  match fields with
  | [] => Ok []
  | x :: fields' =>
      if str_empty (strip x) then reason_indices_of py_int fields'
      else match py_int (strip x) with
           | None => Raise ValueError
           | Some n =>
               match reason_indices_of py_int fields' with
               | Ok indices => Ok ((n - 1)%Z :: indices)
               | Raise e => Raise e
               end
           end
  end.

(** [[list(REJECTION_TEMPLATES.keys())[i] for i in reason_indices
      if 0 <= i < len(REJECTION_TEMPLATES)]] *)
Fixpoint select_reasons (reason_indices : list Z) : Try (list str) :=
  match reason_indices with
  | [] => Ok []
  | i :: rest =>
      if ((0 <=? i)%Z && (i <? Z.of_nat (List.length REJECTION_TEMPLATES))%Z)%bool
      then match list_subscript (map fst REJECTION_TEMPLATES) i with
           | Raise e => Raise e
           | Ok key =>
               match select_reasons rest with
               | Ok reasons => Ok (key :: reasons)
               | Raise e => Raise e
               end
           end
      else select_reasons rest
  end.

(** The [Application] that [interactive_mode] builds. *)
Definition interactive_application (py_int : str -> option Z)
    : Console Application :=
  company_line <- input ;;
  let company_name := strip company_line in
  contact_line <- input ;;
  let contact_email := strip contact_line in
  founder_line <- input ;;
  let founder_names := or_None (strip founder_line) in
  description_lines <- read_description_lines [] ;;
  let description := join nl description_lines in
  reason_line <- input ;;
  let reason_input := strip reason_line in
  reason_indices <- lift (reason_indices_of py_int (split 44 reason_input)) ;;
  rejection_reasons <- lift (select_reasons reason_indices) ;;
  ret (mkApplication company_name contact_email founder_names description
         rejection_reasons).

(** [interactive_mode], as the email it prints last. *)
Definition interactive_mode (py_int : str -> option Z) : Console str :=
  app <- interactive_application py_int ;;
  ret (generate_rejection_email app).

End Interactive.

(** ** The command line *)

Module Cli.

(** The [argparse] namespace of [main]: two flags, four optional
    strings, and the [--reason] values collected by [action="append"]. *)
Record Namespace : Set := mkNamespace {
  examples : bool;
  interactive : bool;
  company : option str;
  contact : option str;
  founders : option str;
  description : option str;
  reason : option (list str)
}.

(** What [main] goes on to do. *)
Inductive Action : Set :=
| call_print_examples
| call_interactive_mode
| print_email (app : Application)
| print_help.

(** [main], after [parse_args].  [args.company and args.description]
    holds when both are given and non-empty. *)
Definition main (args : Namespace) : Action :=
  if examples args then call_print_examples
  else if interactive args then call_interactive_mode
  else
    match company args, description args with
    | Some (c :: company_rest), Some (d :: description_rest) =>
        print_email
          (mkApplication (c :: company_rest)
             (or_default str_empty (contact args) [])
             (founders args)
             (d :: description_rest)
             (or_default list_empty (reason args) []))
    | _, _ => print_help
    end.

End Cli.

(** ** The example emails

    The three entries of [examples] in [print_examples]. *)

Record Example : Set := mkExample {
  example_company : str;
  example_reason : str;
  example_email : str
}.

Definition example_1 : Example :=
  mkExample (lit "WormAI, Inc. (Sec0)") (lit "Early stage, no cofounder")
    (lit "Hi Ashish,"
       ++ nl
       ++ nl
       ++ lit "Thanks very much for expressing interest in being part of SAIF and our efforts to create a better future with AI. Unfortunately at this time we don't think that Sec0 fits within the criteria we are using for our fund."
       ++ nl
       ++ nl
       ++ lit "Wrapping agent workflows with governance, monitoring, and control layers is an important direction, and we can see why this category will matter as agentic systems become more widely deployed. However, Sec0 is still at a very early stage, and we generally look for teams with a committed founding group, clear technical ownership, and a more defined product trajectory before engaging as investors. Given the current state of the team and the work, we don't believe this is the right fit for SAIF at this time."
       ++ nl
       ++ nl
       ++ lit "We wish you the best as you continue developing the idea and building toward a more complete product."
       ++ nl
       ++ nl
       ++ lit "Best,"
       ++ nl
       ++ lit "The SAIF Team").

Definition example_2 : Example :=
  mkExample (lit "Tova") (lit "No technical cofounder")
    (lit "Hi there,"
       ++ nl
       ++ nl
       ++ lit "Thanks very much for expressing interest in being part of SAIF and our efforts to create a better future with AI. Unfortunately at this time we don't think that Tova fits within the criteria we are using for our fund."
       ++ nl
       ++ nl
       ++ lit "Helping users detect scams and risky interactions in real time is an important problem, and we can see the appeal of a product that integrates directly into messaging and financial platforms. However, SAIF typically looks for teams with strong technical founding leadership given the complexity and competitiveness of building safety-critical AI systems. At this stage, and without a technical cofounder driving the core system, we don't believe Tova is the right fit for SAIF's focus."
       ++ nl
       ++ nl
       ++ lit "We wish you the best as you continue developing the product and exploring partnerships."
       ++ nl
       ++ nl
       ++ lit "Best,"
       ++ nl
       ++ lit "The SAIF Team").

Definition example_3 : Example :=
  mkExample (lit "VAITION") (lit "Too conceptual")
    (lit "Hi Vadim,"
       ++ nl
       ++ nl
       ++ lit "Thanks very much for expressing interest in being part of SAIF and our efforts to create a better future with AI. Unfortunately at this time we don't think that VAITION fits within the criteria we are using for our fund."
       ++ nl
       ++ nl
       ++ lit "Your proposal explores ambitious ideas around human presence and trust in digital systems. However, the approach as described is highly conceptual, and it's difficult for us to assess a clear technical pathway, feasibility, or near-term product direction. SAIF's focus is on companies building practical, deployable technologies that can be validated and scaled to improve safety and security in real-world AI systems, and VAITION does not currently align with that focus."
       ++ nl
       ++ nl
       ++ lit "We appreciate you reaching out and wish you the best as you continue developing your ideas."
       ++ nl
       ++ nl
       ++ lit "Best,"
       ++ nl
       ++ lit "The SAIF Team").

Definition examples : list Example := [example_1; example_2; example_3].

(** * Properties *)

(** ** Strings *)

Lemma str_eqb_eq (s t : str) : str_eqb s t = true <-> s = t.
Proof.
  revert t; induction s as [|c s IH]; intros [|d t]; simpl;
    split; try easy.
  - intros H. apply andb_true_iff in H as [H1 H2].
    apply N.eqb_eq in H1. apply IH in H2. congruence.
  - intros [= -> ->]. rewrite N.eqb_refl. simpl. now apply IH.
Qed.

Lemma startswith_Prefix (s p : str) : startswith s p = true <-> Prefix p s.
Proof.
  unfold Prefix. revert s; induction p as [|c p IH]; intros s; simpl.
  - split; [intros _; now exists s | reflexivity].
  - destruct s as [|d s].
    + split; [discriminate | intros [r H]; discriminate].
    + rewrite andb_true_iff, N.eqb_eq, IH. split.
      * intros [-> [r ->]]. now exists r.
      * intros [r [= -> ->]]. split; [reflexivity | now exists r].
Qed.

Lemma str_in_Substring (sub s : str) : str_in sub s = true <-> Substring sub s.
Proof.
  unfold Substring. induction s as [|d s IH]; simpl.
  - rewrite orb_false_r, startswith_Prefix. split.
    + intros [r H]. now exists [], r.
    + intros [[|e pre] [post H]]; simpl in H; [now exists post | discriminate].
  - rewrite orb_true_iff, startswith_Prefix, IH. split.
    + intros [[r H] | [pre [post H]]].
      * now exists [], r.
      * exists (d :: pre), post. simpl. now rewrite H.
    + intros [[|e pre] [post H]]; simpl in H.
      * left. now exists post.
      * right. injection H as -> H. now exists pre, post.
Qed.

Lemma str_in_not_Substring (sub s : str) :
  str_in sub s = false <-> ~ Substring sub s.
Proof.
  rewrite <- str_in_Substring. destruct (str_in sub s); split; easy.
Qed.

Lemma Substring_middle (pre sub post : str) : Substring sub (pre ++ sub ++ post).
Proof. now exists pre, post. Qed.

(** ** The catalog *)

Lemma dict_get_In {V : Type} (k : str) (d : list (str * V)) (v : V) :
  dict_get k d = Some v -> In (k, v) d.
Proof.
  induction d as [|[k' v'] d IH]; simpl; [discriminate|].
  destruct (str_eqb k k') eqn:E.
  - intros [= ->]. apply str_eqb_eq in E. left. now subst.
  - intros H. right. now apply IH.
Qed.

(** The catalog has seven tags, each declared once. *)
Lemma REJECTION_TEMPLATES_keys :
  map fst REJECTION_TEMPLATES =
    [ lit "not_ai_safety"; lit "early_stage_no_team"; lit "no_tech_cofounder";
      lit "too_conceptual"; lit "safety_angle_unclear"; lit "not_for_profit";
      lit "general_not_aligned" ]
  /\ NoDup (map fst REJECTION_TEMPLATES).
Proof.
  split; [reflexivity|].
  repeat constructor; simpl; intros H;
    repeat (destruct H as [H|H]; [vm_compute in H; discriminate H|]);
    exact H.
Qed.

(** Every body of the catalog carries the marker [{company_name}]. *)
Lemma REJECTION_TEMPLATES_placeholder :
  Forall (fun kv => Substring (lit "{company_name}") (template (snd kv)))
    REJECTION_TEMPLATES.
Proof.
  repeat constructor; apply str_in_Substring; vm_compute; reflexivity.
Qed.

Lemma Substring_app_l (x p s : str) : Substring x s -> Substring x (p ++ s).
Proof.
  intros [pre [post ->]]. exists (p ++ pre), post. now rewrite app_assoc.
Qed.

(** ** The feedback paragraph *)

(** C6. With [rejection_reasons = []] the feedback paragraph is the fixed
    one-sentence fallback built around the company name, and so the
    company name occurs in it. *)
Theorem no_reason_feedback :
  forall application,
    rejection_reasons application = [] ->
    generate_feedback_paragraph application
      = lit "While we appreciate your submission, "
          ++ company_name application
          ++ lit " does not currently align with our investment criteria."
    /\ Substring (company_name application)
         (generate_feedback_paragraph application).
Proof.
  intros application Hnone.
  assert (E : generate_feedback_paragraph application
              = no_reason_sentence (company_name application)).
  { unfold generate_feedback_paragraph. now rewrite Hnone. }
  split; [exact E|]. rewrite E. apply Substring_middle.
Qed.

Lemma no_reason_feedback_witness :
  rejection_reasons app_no_reason = []
  /\ Substring (lit "Acme") (generate_feedback_paragraph app_no_reason).
Proof.
  split; [reflexivity|].
  exact (proj2 (no_reason_feedback app_no_reason eq_refl)).
Defined.

(** C2. When the first rejection reason is a tag of the catalog, the
    feedback paragraph is the line ["[TEMPLATE: " + summary + "]"], a
    newline, and the tag's template body as the catalog has it; the
    body's [{company_name}] marker is still there, whatever the
    application's company name is. *)
Theorem known_reason_feedback :
  forall application primary_reason rest template_info,
    rejection_reasons application = primary_reason :: rest ->
    dict_get primary_reason REJECTION_TEMPLATES = Some template_info ->
    generate_feedback_paragraph application
      = lit "[TEMPLATE: " ++ summary template_info ++ lit "]" ++ nl
          ++ template template_info
    /\ Substring (lit "{company_name}")
         (generate_feedback_paragraph application).
Proof.
  intros application primary_reason rest template_info Hfirst Hfound.
  assert (E : generate_feedback_paragraph application
              = lit "[TEMPLATE: " ++ summary template_info ++ lit "]" ++ nl
                  ++ template template_info).
  { unfold generate_feedback_paragraph. now rewrite Hfirst, Hfound. }
  split; [exact E|]. rewrite E.
  do 4 apply Substring_app_l.
  apply dict_get_In in Hfound.
  exact (proj1 (Forall_forall _ _) REJECTION_TEMPLATES_placeholder
           _ Hfound).
Qed.

Lemma known_reason_feedback_witness :
  generate_feedback_paragraph app_not_ai_safety
    = lit "[TEMPLATE: Product is not focused on AI safety]" ++ nl
        ++ template tpl_not_ai_safety.
Proof.
  exact (proj1 (known_reason_feedback app_not_ai_safety
                  (lit "not_ai_safety") [lit "too_conceptual"]
                  tpl_not_ai_safety eq_refl eq_refl)).
Defined.

(** C1, as the code has it. When the first rejection reason is not a tag
    of the catalog, the feedback paragraph is one fixed sentence about
    SAIF's focus.  It is the same for every application, so it does not
    cite the company name, and it is never the sentence returned for
    [rejection_reasons = []]. *)
Theorem unknown_reason_feedback :
  forall application primary_reason rest,
    rejection_reasons application = primary_reason :: rest ->
    dict_get primary_reason REJECTION_TEMPLATES = None ->
    generate_feedback_paragraph application
      = lit "The project does not currently align with SAIF's focus on companies building practical technologies that directly improve safety and security in real-world AI systems."
    /\ generate_feedback_paragraph application
         <> no_reason_sentence (company_name application).
Proof.
  intros application primary_reason rest Hfirst Hmissing.
  assert (E : generate_feedback_paragraph application
              = unknown_reason_sentence).
  { unfold generate_feedback_paragraph. now rewrite Hfirst, Hmissing. }
  split; [exact E|]. rewrite E. intros H.
  apply (f_equal (hd 0)) in H. vm_compute in H. discriminate H.
Qed.

Lemma unknown_reason_feedback_witness :
  generate_feedback_paragraph app_unknown_tag = unknown_reason_sentence.
Proof.
  exact (proj1 (unknown_reason_feedback app_unknown_tag
                  (lit "nonexistent_tag") [] eq_refl eq_refl)).
Defined.

(** C1 as stated fails: for the unknown tag ["nonexistent_tag"] the
    paragraph is not the one returned for the same application with
    [rejection_reasons = []], and the company name does not occur in
    it. *)
Lemma unknown_reason_is_not_the_empty_fallback :
  rejection_reasons app_unknown_tag = [lit "nonexistent_tag"]
  /\ dict_get (lit "nonexistent_tag") REJECTION_TEMPLATES = None
  /\ rejection_reasons app_no_reason = []
  /\ generate_feedback_paragraph app_unknown_tag
       <> generate_feedback_paragraph app_no_reason
  /\ ~ Substring (company_name app_unknown_tag)
         (generate_feedback_paragraph app_unknown_tag).
Proof.
  repeat split.
  - intros H. apply (f_equal (hd 0)) in H. vm_compute in H. discriminate H.
  - apply str_in_not_Substring. vm_compute. reflexivity.
Qed.

(** ** The composed email *)

(** C3. The email starts with ["Hi " + founder_names + ","] when
    [founder_names] is a non-empty string, and with ["Hi there,"] when
    it is [None] or the empty string. *)
Theorem email_greeting :
  forall application,
    (forall names,
        founder_names application = Some names -> names <> [] ->
        Prefix (lit "Hi " ++ names ++ lit ",")
          (generate_rejection_email application))
    /\ (founder_names application = None
        \/ founder_names application = Some [] ->
        Prefix (lit "Hi there,") (generate_rejection_email application)).
Proof.
  intros application. unfold generate_rejection_email; cbv zeta. split.
  - intros names -> Hne. destruct names as [|c n]; [now contradiction Hne|].
    eexists; reflexivity.
  - intros [-> | ->]; eexists; reflexivity.
Qed.

Lemma email_greeting_witness :
  Prefix (lit "Hi Ada,") (generate_rejection_email app_not_ai_safety)
  /\ Prefix (lit "Hi there,") (generate_rejection_email app_no_reason)
  /\ Prefix (lit "Hi there,") (generate_rejection_email app_building_platform).
Proof.
  split; [|split].
  - apply (proj1 (email_greeting app_not_ai_safety) (lit "Ada"));
      [reflexivity | discriminate].
  - apply (proj2 (email_greeting app_no_reason)). left; reflexivity.
  - apply (proj2 (email_greeting app_building_platform)). right; reflexivity.
Defined.

(** C5. The email is greeting, opening, feedback and closing, in that
    order, with one blank line between neighbours; the closing is the
    wish sentence around [get_closing_wish], a blank line, and the
    signature ["Best,\nThe SAIF Team"], on which the email ends. *)
Theorem email_layout :
  forall application,
    exists greeting opening closing,
      generate_rejection_email application
        = greeting ++ nl ++ nl ++ opening ++ nl ++ nl
            ++ generate_feedback_paragraph application ++ nl ++ nl ++ closing
      /\ ((founder_names application = None
           \/ founder_names application = Some [])
          /\ greeting = lit "Hi there,"
          \/ exists names,
               names <> [] /\ founder_names application = Some names
               /\ greeting = lit "Hi " ++ names ++ lit ",")
      /\ opening
           = lit "Thanks very much for expressing interest in being part of SAIF and our efforts to create a better future with AI. Unfortunately at this time we don't think that "
               ++ company_name application
               ++ lit " fits within the criteria we are using for our fund."
      /\ closing
           = (lit "We wish you the best as you continue "
                ++ get_closing_wish application ++ lit ".")
               ++ nl ++ nl ++ (lit "Best," ++ nl ++ lit "The SAIF Team")
      /\ Suffix (lit "Best," ++ nl ++ lit "The SAIF Team")
           (generate_rejection_email application).
Proof.
  intros application. unfold generate_rejection_email; cbv zeta.
  do 3 eexists. split; [reflexivity|]. split; [|split; [reflexivity|split]].
  - destruct (founder_names application) as [[|c n]|].
    + left. split; [now right | reflexivity].
    + right. exists (c :: n). repeat split. discriminate.
    + left. split; [now left | reflexivity].
  - now rewrite <- !app_assoc.
  - unfold Suffix. eexists. rewrite !app_assoc. reflexivity.
Qed.

(** C7. Only the first rejection reason matters: two applications that
    agree on every field and on the first reason, whatever follows it,
    get the same email. *)
Theorem email_uses_first_reason_only :
  forall company contact founders text primary_reason rest rest',
    generate_rejection_email
      (mkApplication company contact founders text (primary_reason :: rest))
    = generate_rejection_email
        (mkApplication company contact founders text (primary_reason :: rest')).
Proof.
  intros. unfold generate_rejection_email, generate_feedback_paragraph,
    get_closing_wish.
  reflexivity.
Qed.

(** C9. The email does not depend on [contact_email]: two applications
    that differ in that field only get the same email. *)
Theorem email_ignores_contact_email :
  forall company contact contact' founders text reasons,
    generate_rejection_email
      (mkApplication company contact founders text reasons)
    = generate_rejection_email
        (mkApplication company contact' founders text reasons).
Proof.
  intros. unfold generate_rejection_email, generate_feedback_paragraph,
    get_closing_wish.
  reflexivity.
Qed.

(** ** The closing wish *)

Lemma closing_rule_functional (d w w' : str) :
  closing_rule d w -> closing_rule d w' -> w = w'.
Proof.
  intros H H'. destruct H; destruct H'; try reflexivity; tauto.
Qed.

(** C4. [get_closing_wish] returns, for every description, the phrase
    of the first rule that applies to the lower-cased description:
    "building" or "develop", else "platform", else "research", else
    "product", else the default; the phrase is one of the five listed.
    "We are building a platform" gives "building the company". *)
Theorem get_closing_wish_policy :
  (forall application,
      closing_rule (lower (description application))
        (get_closing_wish application)
      /\ In (get_closing_wish application) closing_phrases)
  /\ (forall company contact founders reasons,
        get_closing_wish
          (mkApplication company contact founders
             (lit "We are building a platform") reasons)
        = lit "building the company").
Proof.
  split; [|intros; vm_compute; reflexivity].
  intros application. unfold get_closing_wish; cbv zeta.
  set (d := lower (description application)).
  destruct (str_in (lit "building") d) eqn:Ebuilding.
  { cbn [orb]. split; [|now left].
    apply rule_building. left. now apply str_in_Substring. }
  destruct (str_in (lit "develop") d) eqn:Edevelop.
  { cbn [orb]. split; [|now left].
    apply rule_building. right. now apply str_in_Substring. }
  cbn [orb].
  apply str_in_not_Substring in Ebuilding, Edevelop.
  destruct (str_in (lit "platform") d) eqn:Eplatform.
  { split; [|now right; left].
    apply rule_platform; trivial. now apply str_in_Substring. }
  apply str_in_not_Substring in Eplatform.
  destruct (str_in (lit "research") d) eqn:Eresearch.
  { split; [|now right; right; left].
    apply rule_research; trivial. now apply str_in_Substring. }
  apply str_in_not_Substring in Eresearch.
  destruct (str_in (lit "product") d) eqn:Eproduct.
  { split; [|now right; right; right; left].
    apply rule_product; trivial. now apply str_in_Substring. }
  apply str_in_not_Substring in Eproduct.
  split; [|now right; right; left].
  now apply rule_default.
Qed.

(** *** Letter case *)

Lemma lower_char_case_pair (c d : char) :
  ascii_case_pair c d -> lower_char c = lower_char d.
Proof.
  assert (Hup : forall x, is_ascii_upper x = true ->
                          lower_char x = lower_char (x + 32)).
  { intros x Hx. unfold lower_char. rewrite Hx.
    unfold is_ascii_upper in *.
    apply andb_true_iff in Hx as [Hlo Hhi].
    apply N.leb_le in Hlo, Hhi.
    replace (x + 32 <=? 90) with false by (symmetry; apply N.leb_gt; lia).
    rewrite andb_false_r.
    replace (x + 32 =? 0x130) with false by (symmetry; apply N.eqb_neq; lia).
    replace (x + 32 =? 0x212A) with false by (symmetry; apply N.eqb_neq; lia).
    reflexivity. }
  intros [-> | [[Hc ->] | [Hd ->]]].
  - reflexivity.
  - now apply Hup.
  - symmetry. now apply Hup.
Qed.

Lemma lower_case_variant (s t : str) :
  ascii_case_variant s t -> lower s = lower t.
Proof.
  unfold lower. induction 1 as [|c d s t Hcd _ IH]; simpl.
  - reflexivity.
  - now rewrite (lower_char_case_pair c d Hcd), IH.
Qed.

Lemma upper_char_ascii (c : char) :
  is_ascii c = true ->
  upper_char c = [if is_ascii_lower c then c - 32 else c].
Proof.
  unfold is_ascii, upper_char. intros Hc. apply N.ltb_lt in Hc.
  destruct (is_ascii_lower c); [reflexivity|].
  unfold upper_special, assoc_char.
  repeat match goal with
         | |- context [c =? ?k] =>
             replace (c =? k) with false by (symmetry; apply N.eqb_neq; lia)
         end.
  reflexivity.
Qed.

Lemma upper_ascii_case_variant (s : str) :
  Forall (fun c => is_ascii c = true) s -> ascii_case_variant s (upper s).
Proof.
  unfold ascii_case_variant, upper.
  induction 1 as [|c s Hc _ IH]; simpl; [constructor|].
  rewrite (upper_char_ascii c Hc). simpl. constructor; [|exact IH].
  unfold ascii_case_pair, is_ascii_lower, is_ascii_upper.
  destruct ((97 <=? c) && (c <=? 122)) eqn:E; [|now left].
  apply andb_true_iff in E as [Hlo Hhi]. apply N.leb_le in Hlo, Hhi.
  right; right. split.
  - apply andb_true_iff. split; apply N.leb_le; lia.
  - lia.
Qed.

Lemma get_closing_wish_lower (a a' : Application) :
  lower (description a) = lower (description a') ->
  get_closing_wish a = get_closing_wish a'.
Proof. unfold get_closing_wish. now intros ->. Qed.

(** C10, as the code has it. The closing wish does not change when
    ASCII letters of the description change case; in particular it
    does not change when a description made of ASCII characters is
    upper-cased. *)
Theorem get_closing_wish_ascii_case :
  forall application application',
    (ascii_case_variant (description application) (description application')
     -> get_closing_wish application = get_closing_wish application')
    /\ (Forall (fun c => is_ascii c = true) (description application)
        -> description application' = upper (description application)
        -> get_closing_wish application = get_closing_wish application').
Proof.
  intros application application'. split.
  - intros Hvariant. apply get_closing_wish_lower.
    now apply lower_case_variant.
  - intros Hascii Hupper. apply get_closing_wish_lower.
    apply lower_case_variant. rewrite Hupper.
    now apply upper_ascii_case_variant.
Qed.

Lemma get_closing_wish_ascii_case_witness :
  get_closing_wish app_building_platform
  = get_closing_wish
      (mkApplication [] [] None (lit "WE ARE BUILDING A PLATFORM") []).
Proof.
  apply (proj2 (get_closing_wish_ascii_case app_building_platform
                  (mkApplication [] [] None
                     (lit "WE ARE BUILDING A PLATFORM") []))).
  - vm_compute. repeat constructor.
  - vm_compute. reflexivity.
Defined.

(** C10 as stated fails outside ASCII: upper-casing "buıldıng", written
    with the dotless i [U+0131], gives "BUILDING", and the closing wish
    changes from the default to "building the company". *)
Lemma upper_case_changes_closing_wish :
  description app_dotless_upper = upper (description app_dotless)
  /\ upper (description app_dotless) = lit "BUILDING"
  /\ lower (description app_dotless) = description app_dotless
  /\ get_closing_wish app_dotless = lit "developing your ideas"
  /\ get_closing_wish app_dotless_upper = lit "building the company"
  /\ get_closing_wish app_dotless_upper <> get_closing_wish app_dotless.
Proof.
  repeat split; intros H; vm_compute in H; discriminate H.
Qed.

(** *** Adequacy of the case-mapping model

    The keyword tests give the same answers on [lower s] as on any text
    obtained from [s] by a case mapping that agrees with [lower_char]
    wherever ASCII is involved. *)

Lemma ascii_neq_nonascii (a c : char) :
  is_ascii a = true -> is_ascii c = false -> (a =? c) = false.
Proof.
  unfold is_ascii. intros Ha Hc.
  apply N.ltb_lt in Ha. apply N.ltb_ge in Hc. apply N.eqb_neq. lia.
Qed.

Lemma startswith_nonascii_head (c : char) (s k : str) :
  is_ascii c = false -> Forall (fun x => is_ascii x = true) k ->
  startswith (c :: s) k = match k with [] => true | _ :: _ => false end.
Proof.
  intros Hc Hk. destruct k as [|a k]; simpl; [reflexivity|].
  inversion Hk; subst. now rewrite (ascii_neq_nonascii a c).
Qed.

Lemma str_in_skip_nonascii (u s k : str) :
  k <> [] -> Forall (fun x => is_ascii x = true) k ->
  Forall (fun x => is_ascii x = false) u ->
  str_in k (u ++ s) = str_in k s.
Proof.
  intros Hne Hk. induction 1 as [|c u Hc _ IH]; [reflexivity|].
  cbn [app str_in]. rewrite (startswith_nonascii_head c _ k Hc Hk), IH.
  destruct k; [now contradiction Hne | reflexivity].
Qed.

Lemma ascii_equivalent_refl (t : str) : ascii_equivalent t t.
Proof. split; reflexivity. Qed.

Lemma ascii_equivalent_app (w t t' : str) :
  ascii_equivalent t t' -> ascii_equivalent (w ++ t) (w ++ t').
Proof.
  intros E. induction w as [|x w [IHs IHi]]; [exact E|].
  assert (Hs : forall k, Forall (fun x => is_ascii x = true) k ->
                         startswith (x :: w ++ t) k
                         = startswith (x :: w ++ t') k).
  { intros [|a k] Hk; simpl; [reflexivity|].
    inversion Hk; subst. now rewrite IHs. }
  split; [exact Hs|].
  intros k Hne Hk. cbn [app str_in]. now rewrite Hs, IHi.
Qed.

Lemma ascii_equivalent_blocks (u v t t' : str) :
  u <> [] -> v <> [] ->
  Forall (fun x => is_ascii x = false) u ->
  Forall (fun x => is_ascii x = false) v ->
  ascii_equivalent t t' -> ascii_equivalent (u ++ t) (v ++ t').
Proof.
  intros Hu Hv Fu Fv [_ Ei]. split.
  - intros k Hk.
    destruct u as [|c u]; [now contradiction Hu|].
    destruct v as [|d v]; [now contradiction Hv|].
    inversion Fu; inversion Fv; subst. cbn [app].
    now rewrite !startswith_nonascii_head.
  - intros k Hne Hk. rewrite !str_in_skip_nonascii; auto.
Qed.

Lemma lower_char_other (c : char) :
  is_ascii c = false -> c <> 0x130 -> c <> 0x212A -> lower_char c = [c].
Proof.
  unfold is_ascii, lower_char, is_ascii_upper. intros Hc H1 H2.
  apply N.ltb_ge in Hc.
  replace (c <=? 90) with false by (symmetry; apply N.leb_gt; lia).
  rewrite andb_false_r.
  apply N.eqb_neq in H1, H2. now rewrite H1, H2.
Qed.

Lemma lower_image_equivalent (s t : str) :
  lower_image s t -> ascii_equivalent t (lower s).
Proof.
  induction 1 as [|c s t _ IH|c u s t Hc H1 H2 Hu Fu _ IH].
  - apply ascii_equivalent_refl.
  - now apply ascii_equivalent_app.
  - change (lower (c :: s)) with (lower_char c ++ lower s).
    rewrite (lower_char_other c Hc H1 H2).
    apply ascii_equivalent_blocks;
      [exact Hu | discriminate | exact Fu | now constructor | exact IH].
Qed.

Lemma lower_image_lower (s : str) : lower_image s (lower s).
Proof.
  induction s as [|c s IH]; [constructor|].
  now apply lower_image_exact.
Qed.

Lemma lower_model_adequate (s t : str) :
  lower_image s t ->
  Forall (fun k => str_in k t = str_in k (lower s)) closing_keywords.
Proof.
  intros H. destruct (lower_image_equivalent s t H) as [_ Ei].
  repeat constructor; apply Ei; try discriminate;
    vm_compute; repeat constructor.
Qed.

(** ** Effects *)

(** The feedback generator returns, raises nothing and leaves the state
    as it found it: the subscript that follows a successful [in] test
    cannot raise [KeyError]. *)
Lemma feedback_reads_only (application : Application) (w : Effects.World) :
  exists paragraph,
    Effects.generate_feedback_paragraph application w
    = (Effects.Returned paragraph, w).
Proof.
  unfold Effects.generate_feedback_paragraph.
  destruct (rejection_reasons application) as [|primary_reason rest].
  - eexists; reflexivity.
  - cbv beta iota zeta delta
      [Effects.bind Effects.load_REJECTION_TEMPLATES Effects.contains_key
       Effects.subscript Effects.ret Effects.raise].
    destruct (dict_get primary_reason (Effects.global_REJECTION_TEMPLATES w))
      eqn:Hget; cbv beta iota; rewrite ?Hget; eexists; reflexivity.
Qed.

Lemma feedback_agrees (application : Application) (w : Effects.World) :
  Effects.global_REJECTION_TEMPLATES w = REJECTION_TEMPLATES ->
  Effects.generate_feedback_paragraph application w
  = (Effects.Returned (generate_feedback_paragraph application), w).
Proof.
  intros Hw.
  unfold Effects.generate_feedback_paragraph, generate_feedback_paragraph.
  destruct (rejection_reasons application) as [|primary_reason rest].
  - reflexivity.
  - cbv beta iota zeta delta
      [Effects.bind Effects.load_REJECTION_TEMPLATES Effects.contains_key
       Effects.subscript Effects.ret Effects.raise].
    destruct (dict_get primary_reason (Effects.global_REJECTION_TEMPLATES w))
      eqn:Hget; cbv beta iota; rewrite ?Hget; rewrite Hw in Hget;
      rewrite Hget; reflexivity.
Qed.

Lemma email_reads_only (application : Application) (w : Effects.World) :
  exists email,
    Effects.generate_rejection_email application w
    = (Effects.Returned email, w).
Proof.
  destruct (feedback_reads_only application w) as [paragraph H].
  unfold Effects.generate_rejection_email; cbv zeta.
  unfold Effects.bind. rewrite H. eexists; reflexivity.
Qed.

Lemma email_agrees (application : Application) (w : Effects.World) :
  Effects.global_REJECTION_TEMPLATES w = REJECTION_TEMPLATES ->
  Effects.generate_rejection_email application w
  = (Effects.Returned (generate_rejection_email application), w).
Proof.
  intros Hw.
  unfold Effects.generate_rejection_email, generate_rejection_email;
    cbv zeta.
  unfold Effects.bind. rewrite (feedback_agrees application w Hw).
  reflexivity.
Qed.

(** C8. [generate_rejection_email] is deterministic and pure. Run on
    the interpreter state, it returns a string without raising, and
    leaves the bound catalog and the standard output as they were, so
    that two invocations in a row on one input return the same string;
    with the catalog as the module declares it, that string is the value
    of the function [generate_rejection_email] of this development. *)
Theorem generate_rejection_email_pure :
  forall application w,
    (exists email,
        Effects.compose_twice application w
        = (Effects.Returned (email, email), w))
    /\ (Effects.global_REJECTION_TEMPLATES w = REJECTION_TEMPLATES ->
        Effects.generate_rejection_email application w
        = (Effects.Returned (generate_rejection_email application), w)).
Proof.
  intros application w. split.
  - destruct (email_reads_only application w) as [email H].
    exists email. unfold Effects.compose_twice, Effects.bind.
    rewrite H, H. reflexivity.
  - now apply email_agrees.
Qed.

Lemma generate_rejection_email_pure_witness :
  Effects.generate_rejection_email app_not_ai_safety Effects.initial_world
  = (Effects.Returned (generate_rejection_email app_not_ai_safety),
     Effects.initial_world).
Proof.
  exact (proj2 (generate_rejection_email_pure app_not_ai_safety
                  Effects.initial_world) eq_refl).
Defined.

(** By contrast the command-line branch of [main] does write: it appends
    the email to the standard output. *)
Lemma main_print_writes (application : Application) :
  Effects.main_print application Effects.initial_world
  = (Effects.Returned tt,
     Effects.mkWorld REJECTION_TEMPLATES
       [generate_rejection_email application]).
Proof.
  unfold Effects.main_print, Effects.bind.
  rewrite (email_agrees application Effects.initial_world eq_refl).
  reflexivity.
Qed.

(** * Further properties *)

(** ** Placeholders in the email *)

Lemma Substring_single (c : char) (s : str) : Substring [c] s <-> In c s.
Proof.
  unfold Substring. split.
  - intros [pre [post ->]]. apply in_or_app. right. now left.
  - intros H. apply in_split in H as [pre [post ->]]. now exists pre, post.
Qed.

Lemma Substring_In (c : char) (sub s : str) :
  In c sub -> Substring sub s -> In c s.
Proof.
  intros Hc [pre [post ->]]. apply in_or_app. right.
  apply in_or_app. now left.
Qed.

Lemma In_existsb (c : char) (s : str) :
  In c s -> existsb (N.eqb c) s = true.
Proof.
  intros H. apply existsb_exists. exists c. split; [exact H|].
  apply N.eqb_refl.
Qed.

Lemma get_closing_wish_phrase (application : Application) :
  In (get_closing_wish application) closing_phrases.
Proof.
  unfold get_closing_wish; cbv zeta.
  set (d := lower (description application)).
  destruct (str_in (lit "building") d); [now left|].
  destruct (str_in (lit "develop") d); [now left|]. cbn [orb].
  destruct (str_in (lit "platform") d); [now right; left|].
  destruct (str_in (lit "research") d); [now right; right; left|].
  destruct (str_in (lit "product") d); [now right; right; right; left|].
  now right; right; left.
Qed.

(** No opening brace in a closed text. *)
Ltac no_brace H := apply In_existsb in H; vm_compute in H; discriminate H.

Lemma closing_wish_no_brace (application : Application) :
  ~ In 123 (get_closing_wish application).
Proof.
  intros H. pose proof (get_closing_wish_phrase application) as Hp.
  unfold closing_phrases in Hp. cbn [In] in Hp.
  destruct Hp as [E|[E|[E|[E|[E|[]]]]]]; rewrite <- E in H; no_brace H.
Qed.

(** X1. When neither the company name nor the founder names contain an
    opening brace, the email contains one exactly when its feedback
    paragraph is a catalog template, that is when the first rejection
    reason is a tag of the catalog: such an email still carries
    unfilled markers, every other email carries none. *)
Theorem email_brace_iff_template :
  forall application,
    ~ In 123 (company_name application) ->
    (forall names, founder_names application = Some names -> ~ In 123 names) ->
    (Substring (lit "{") (generate_rejection_email application)
     <-> exists primary_reason rest template_info,
           rejection_reasons application = primary_reason :: rest
           /\ dict_get primary_reason REJECTION_TEMPLATES = Some template_info).
Proof.
  intros application Hcompany Hfounders.
  change (lit "{") with [123]. rewrite Substring_single.
  assert (Hgreeting : forall rest,
             In 123 (match founder_names application with
                     | Some (c :: n) => lit "Hi " ++ (c :: n) ++ lit ","
                     | _ => lit "Hi there,"
                     end ++ rest) -> In 123 rest).
  { intros rest H. apply in_app_or in H as [H|H]; [exfalso|exact H].
    destruct (founder_names application) as [[|c n]|] eqn:E;
      try (no_brace H).
    apply in_app_or in H as [H|H]; [no_brace H|].
    apply in_app_or in H as [H|H]; [|no_brace H].
    exact (Hfounders (c :: n) eq_refl H). }
  unfold generate_rejection_email; cbv zeta. split.
  - intros H. apply Hgreeting in H.
    repeat (apply in_app_or in H as [H|H];
            [try (no_brace H); try (now contradiction Hcompany);
             try (now apply closing_wish_no_brace in H)|]);
      try (no_brace H).
    unfold generate_feedback_paragraph in H.
    destruct (rejection_reasons application) as [|primary_reason rest].
    + exfalso.
      repeat (apply in_app_or in H as [H|H];
              [try (no_brace H); try (now contradiction Hcompany)|]);
        try (no_brace H).
    + destruct (dict_get primary_reason REJECTION_TEMPLATES)
        as [template_info|] eqn:Hget; [|no_brace H].
      now exists primary_reason, rest, template_info.
  - intros [primary_reason [rest [template_info [Hfirst Hget]]]].
    apply in_or_app. right.
    do 5 (apply in_or_app; right). apply in_or_app. left.
    unfold generate_feedback_paragraph. rewrite Hfirst, Hget.
    do 4 (apply in_or_app; right).
    apply dict_get_In in Hget.
    apply (Substring_In 123 (lit "{company_name}")); [now left|].
    exact (proj1 (Forall_forall _ _) REJECTION_TEMPLATES_placeholder _ Hget).
Qed.

Lemma email_brace_iff_template_witness :
  Substring (lit "{") (generate_rejection_email app_not_ai_safety)
  /\ ~ Substring (lit "{") (generate_rejection_email app_unknown_tag).
Proof.
  assert (Hcompany : ~ In 123 (lit "Acme")) by (intros H; no_brace H).
  split.
  - apply (email_brace_iff_template app_not_ai_safety Hcompany).
    + intros names [= <-] H. no_brace H.
    + exists (lit "not_ai_safety"), [lit "too_conceptual"], tpl_not_ai_safety.
      split; reflexivity.
  - intros H. apply (email_brace_iff_template app_unknown_tag Hcompany) in H.
    + destruct H as [r [rest [t [Hr Hg]]]].
      injection Hr as <- _. vm_compute in Hg. discriminate Hg.
    + intros names [=].
Defined.

(** ** The closing wish, phrase by phrase *)

Lemma closing_rule_of_wish (application : Application) :
  closing_rule (lower (description application))
    (get_closing_wish application).
Proof.
  unfold get_closing_wish; cbv zeta.
  set (d := lower (description application)).
  destruct (str_in (lit "building") d) eqn:Ebuilding.
  { apply rule_building. left. now apply str_in_Substring. }
  destruct (str_in (lit "develop") d) eqn:Edevelop.
  { apply rule_building. right. now apply str_in_Substring. }
  cbn [orb]. apply str_in_not_Substring in Ebuilding, Edevelop.
  destruct (str_in (lit "platform") d) eqn:Eplatform.
  { apply rule_platform; trivial. now apply str_in_Substring. }
  apply str_in_not_Substring in Eplatform.
  destruct (str_in (lit "research") d) eqn:Eresearch.
  { apply rule_research; trivial. now apply str_in_Substring. }
  apply str_in_not_Substring in Eresearch.
  destruct (str_in (lit "product") d) eqn:Eproduct.
  { apply rule_product; trivial. now apply str_in_Substring. }
  apply str_in_not_Substring in Eproduct.
  now apply rule_default.
Qed.

Lemma closing_wish_iff_rule (application : Application) (w : str) :
  get_closing_wish application = w
  <-> closing_rule (lower (description application)) w.
Proof.
  split.
  - intros <-. apply closing_rule_of_wish.
  - intros H.
    exact (closing_rule_functional _ _ _ (closing_rule_of_wish application) H).
Qed.

(** Inversion of [closing_rule] at a given phrase: the rules with
    another phrase are discarded by comparing the texts. *)
Ltac invert_rule R :=
  match type of R with
  | closing_rule _ ?w =>
      let p := fresh "p" in
      let Ep := fresh "Ep" in
      remember w as p eqn:Ep in R;
      destruct R; try (vm_compute in Ep; discriminate Ep); clear Ep
  end.

Lemma closing_wish_building_iff (application : Application) :
  get_closing_wish application = lit "building the company"
  <-> Substring (lit "building") (lower (description application))
      \/ Substring (lit "develop") (lower (description application)).
Proof.
  rewrite closing_wish_iff_rule. split.
  - intros R. invert_rule R. assumption.
  - intros H. now apply rule_building.
Qed.

(** X2. Each of the three phrases that only one rule gives is returned
    exactly when that rule is the first to apply to the lower-cased
    description: "building the company" exactly when it contains
    "building" or "develop"; "developing the platform" exactly when it
    contains "platform" and neither of those; "building and refining
    the product" exactly when it contains "product" and none of
    "building", "develop", "platform", "research". *)
Theorem closing_wish_characterised :
  forall application,
    (get_closing_wish application = lit "building the company"
     <-> Substring (lit "building") (lower (description application))
         \/ Substring (lit "develop") (lower (description application)))
    /\ (get_closing_wish application = lit "developing the platform"
        <-> ~ Substring (lit "building") (lower (description application))
            /\ ~ Substring (lit "develop") (lower (description application))
            /\ Substring (lit "platform") (lower (description application)))
    /\ (get_closing_wish application = lit "building and refining the product"
        <-> ~ Substring (lit "building") (lower (description application))
            /\ ~ Substring (lit "develop") (lower (description application))
            /\ ~ Substring (lit "platform") (lower (description application))
            /\ ~ Substring (lit "research") (lower (description application))
            /\ Substring (lit "product") (lower (description application))).
Proof.
  intros application. split; [apply closing_wish_building_iff|].
  rewrite !closing_wish_iff_rule. split; split.
  - intros R. invert_rule R. auto.
  - intros [Hb [Hd Hp]]. now apply rule_platform.
  - intros R. invert_rule R. auto.
  - intros [Hb [Hd [Hp [Hr Hq]]]]. now apply rule_product.
Qed.

Lemma lower_app (s t : str) : lower (s ++ t) = lower s ++ lower t.
Proof. unfold lower. apply flat_map_app. Qed.

Lemma Substring_extend (k pre s post : str) :
  Substring k s -> Substring k (pre ++ s ++ post).
Proof.
  intros [a [b ->]]. exists (pre ++ a), (b ++ post).
  now rewrite <- !app_assoc.
Qed.

(** X3. The first rule is not undone by more text: when the description
    of an application selects "building the company", so does every
    description that contains it, whatever is written before or after. *)
Theorem closing_wish_building_stable :
  forall application application' before after,
    description application' = before ++ description application ++ after ->
    get_closing_wish application = lit "building the company" ->
    get_closing_wish application' = lit "building the company".
Proof.
  intros application application' before after Hdesc Hwish.
  apply closing_wish_building_iff in Hwish.
  apply closing_wish_building_iff.
  rewrite Hdesc, !lower_app.
  destruct Hwish as [H|H]; [left|right]; now apply Substring_extend.
Qed.

Lemma closing_wish_building_stable_witness :
  get_closing_wish
    (mkApplication [] [] None
       (lit "Today: " ++ lit "We are building a platform" ++ lit " (product)")
       [])
  = lit "building the company".
Proof.
  apply (closing_wish_building_stable app_building_platform _
           (lit "Today: ") (lit " (product)")).
  - reflexivity.
  - vm_compute. reflexivity.
Defined.

(** ** Menu and selection of the interactive front end *)

Lemma dict_get_key {V : Type} (k : str) (d : list (str * V)) :
  In k (map fst d) -> exists v, dict_get k d = Some v.
Proof.
  induction d as [|[k' v] d IH]; simpl; [easy|].
  intros H. destruct (str_eqb k k') eqn:E; [now exists v|].
  destruct H as [H|H]; [|now apply IH].
  subst k'. rewrite (proj2 (str_eqb_eq k k) eq_refl) in E. discriminate E.
Qed.

Lemma dict_get_NoDup {V : Type} (k : str) (v : V) (d : list (str * V)) :
  NoDup (map fst d) -> In (k, v) d -> dict_get k d = Some v.
Proof.
  induction d as [|[k' v'] d IH]; simpl; [easy|].
  intros ND H. inversion ND as [|? ? Hnotin ND']; subst.
  destruct H as [E|H].
  - injection E as -> ->. now rewrite (proj2 (str_eqb_eq k k) eq_refl).
  - destruct (str_eqb k k') eqn:Ek; [|now apply IH].
    apply str_eqb_eq in Ek; subst k'. exfalso. apply Hnotin.
    exact (in_map fst _ _ H).
Qed.

Lemma list_subscript_in_range {A : Type} (l : list A) (i : Z) :
  (0 <= i < Z.of_nat (List.length l))%Z ->
  exists a, list_subscript l i = Ok a /\ nth_error l (Z.to_nat i) = Some a.
Proof.
  intros [H0 H1]. unfold list_subscript.
  replace (0 <=? i)%Z with true by (symmetry; now apply Z.leb_le).
  destruct (nth_error l (Z.to_nat i)) as [a|] eqn:E; [now exists a|].
  apply nth_error_None in E. lia.
Qed.

Lemma enumerate_In {A : Type} (l : list A) (start n : Z) (a : A) :
  In (n, a) (enumerate l start)
  <-> (start <= n)%Z /\ nth_error l (Z.to_nat (n - start)) = Some a.
Proof.
  revert start. induction l as [|x l IH]; intros start; simpl.
  - split; [easy|]. intros [_ H]. destruct (Z.to_nat (n - start)); discriminate.
  - rewrite IH. split.
    + intros [[= <- <-] | [Hle Hn]].
      * split; [lia|]. now rewrite Z.sub_diag.
      * split; [lia|].
        replace (Z.to_nat (n - start))
          with (S (Z.to_nat (n - (start + 1)))) by lia.
        exact Hn.
    + intros [Hle Hn]. destruct (Z.eq_dec n start) as [->|Hne].
      * left. rewrite Z.sub_diag in Hn. simpl in Hn. now injection Hn as ->.
      * right. split; [lia|].
        replace (Z.to_nat (n - start))
          with (S (Z.to_nat (n - (start + 1)))) in Hn by lia.
        exact Hn.
Qed.

Lemma select_reasons_keys (reason_indices : list Z) :
  exists reasons,
    Interactive.select_reasons reason_indices = Ok reasons
    /\ Forall (fun r => In r (map fst REJECTION_TEMPLATES)) reasons
    /\ (List.length reasons <= List.length reason_indices)%nat.
Proof.
  induction reason_indices as [|i rest [reasons [E [F L]]]];
    cbn [Interactive.select_reasons].
  - exists []. repeat split; constructor.
  - destruct ((0 <=? i)%Z
              && (i <? Z.of_nat (List.length REJECTION_TEMPLATES))%Z)%bool
      eqn:G.
    + apply andb_true_iff in G as [G0 G1].
      apply Z.leb_le in G0. apply Z.ltb_lt in G1.
      destruct (list_subscript_in_range (map fst REJECTION_TEMPLATES) i)
        as [key [Ek En]]; [rewrite length_map; lia|].
      rewrite Ek, E. exists (key :: reasons). repeat split.
      * constructor; [exact (nth_error_In _ _ En) | exact F].
      * cbn [List.length]. lia.
    + exists reasons. repeat split; try assumption. cbn [List.length]. lia.
Qed.

(** X4. The selection of the interactive front end never raises
    [IndexError]: for every list of indices it returns a list of tags,
    at most one per index, and every tag it returns is a key of the
    catalog. *)
Theorem select_reasons_total :
  forall reason_indices,
    exists reasons,
      Interactive.select_reasons reason_indices = Ok reasons
      /\ (forall r, In r reasons ->
                    exists template_info,
                      dict_get r REJECTION_TEMPLATES = Some template_info)
      /\ (List.length reasons <= List.length reason_indices)%nat.
Proof.
  intros reason_indices.
  destruct (select_reasons_keys reason_indices) as [reasons [E [F L]]].
  exists reasons. repeat split; try assumption.
  intros r Hr. apply dict_get_key.
  exact (proj1 (Forall_forall _ _) F r Hr).
Qed.

(** X5. Menu and selection agree. A number shown in the menu selects
    the tag printed next to it, and the feedback paragraph for that
    selection is the template of that menu entry; a number that the
    menu does not show (zero, a negative number, a number past the last
    entry) selects nothing. *)
Theorem menu_selection_round_trip :
  forall n,
    (forall key template_info,
        In (n, (key, template_info)) Interactive.menu_entries ->
        Interactive.select_reasons [(n - 1)%Z] = Ok [key]
        /\ forall company contact founders text,
             generate_feedback_paragraph
               (mkApplication company contact founders text [key])
             = lit "[TEMPLATE: " ++ summary template_info ++ lit "]" ++ nl
                 ++ template template_info)
    /\ ((forall entry, ~ In (n, entry) Interactive.menu_entries) ->
        Interactive.select_reasons [(n - 1)%Z] = Ok []).
Proof.
  intros n. split.
  - intros key template_info Hin.
    apply enumerate_In in Hin as [Hle Hnth].
    assert (Hlt : (Z.to_nat (n - 1) < List.length REJECTION_TEMPLATES)%nat).
    { apply nth_error_Some. now rewrite Hnth. }
    split.
    + cbn [Interactive.select_reasons].
      replace (0 <=? n - 1)%Z with true by (symmetry; apply Z.leb_le; lia).
      replace (n - 1 <? Z.of_nat (List.length REJECTION_TEMPLATES))%Z
        with true by (symmetry; apply Z.ltb_lt; lia).
      cbn [andb]. unfold list_subscript.
      replace (0 <=? n - 1)%Z with true by (symmetry; apply Z.leb_le; lia).
      now rewrite nth_error_map, Hnth.
    + intros company contact founders text.
      unfold generate_feedback_paragraph. cbn [rejection_reasons].
      rewrite (dict_get_NoDup key template_info REJECTION_TEMPLATES
                 (proj2 REJECTION_TEMPLATES_keys) (nth_error_In _ _ Hnth)).
      reflexivity.
  - intros Hnone. cbn [Interactive.select_reasons].
    destruct ((0 <=? n - 1)%Z
              && (n - 1 <? Z.of_nat (List.length REJECTION_TEMPLATES))%Z)%bool
      eqn:G; [exfalso|reflexivity].
    apply andb_true_iff in G as [G0 G1].
    apply Z.leb_le in G0. apply Z.ltb_lt in G1.
    destruct (nth_error REJECTION_TEMPLATES (Z.to_nat (n - 1)))
      as [entry|] eqn:E.
    + apply (Hnone entry). unfold Interactive.menu_entries.
      apply enumerate_In. split; [lia | exact E].
    + apply nth_error_None in E. lia.
Qed.

Lemma menu_selection_round_trip_witness :
  Interactive.select_reasons [(4 - 1)%Z] = Ok [lit "too_conceptual"]
  /\ Interactive.select_reasons [(0 - 1)%Z] = Ok [].
Proof.
  split.
  - apply (proj1 (menu_selection_round_trip 4)
             (lit "too_conceptual") tpl_too_conceptual).
    do 3 right. left. reflexivity.
  - apply (proj2 (menu_selection_round_trip 0)).
    intros entry H. apply enumerate_In in H as [H _]. lia.
Defined.

(** ** Reading the application from the standard input *)

Lemma read_description_lines_stop (acc ls rest : list str) :
  Forall (fun l => l <> []) ls ->
  Interactive.read_description_lines acc (ls ++ [] :: rest)
  = (Ok (acc ++ ls), rest).
Proof.
  revert acc. induction ls as [|l ls IH]; intros acc F;
    cbn [app Interactive.read_description_lines].
  - cbn [str_eqb]. now rewrite app_nil_r.
  - inversion F as [|? ? Hl F']; subst.
    destruct l as [|c l]; [now contradiction Hl|]. cbn [str_eqb].
    rewrite (IH _ F'). now rewrite <- app_assoc.
Qed.

Lemma read_description_lines_inv (acc stdin : list str)
    (out : Try (list str)) (rem : list str) :
  Interactive.read_description_lines acc stdin = (out, rem) ->
  (out = Raise EOFError /\ rem = [] /\ ~ In [] stdin)
  \/ exists ls,
       out = Ok (acc ++ ls) /\ stdin = ls ++ [] :: rem
       /\ Forall (fun l => l <> []) ls.
Proof.
  revert acc. induction stdin as [|line stdin IH]; intros acc;
    cbn [Interactive.read_description_lines].
  - intros [= <- <-]. left. auto.
  - destruct line as [|c l]; cbn [str_eqb].
    + intros [= <- <-]. right. exists []. rewrite app_nil_r.
      repeat split. constructor.
    + intros H. apply IH in H as [[-> [-> Hn]] | [ls [-> [-> F]]]].
      * left. repeat split. intros [E|E]; [discriminate E | contradiction].
      * right. exists ((c :: l) :: ls). rewrite <- app_assoc.
        repeat split. constructor; [discriminate | assumption].
Qed.

Lemma interactive_application_unfold (py_int : str -> option Z)
    (c e f : str) (tail : list str) :
  Interactive.interactive_application py_int (c :: e :: f :: tail)
  = match Interactive.read_description_lines [] tail with
    | (Ok ls, r :: rest) =>
        match Interactive.reason_indices_of py_int (split 44 (strip r)) with
        | Ok indices =>
            match Interactive.select_reasons indices with
            | Ok reasons =>
                (Ok (mkApplication (strip c) (strip e) (or_None (strip f))
                       (join nl ls) reasons), rest)
            | Raise x => (Raise x, rest)
            end
        | Raise x => (Raise x, rest)
        end
    | (Ok ls, []) => (Raise EOFError, [])
    | (Raise x, rem) => (Raise x, rem)
    end.
Proof.
  unfold Interactive.interactive_application, Interactive.bind,
    Interactive.input, Interactive.lift, Interactive.ret.
  destruct (Interactive.read_description_lines [] tail) as [[ls|x] [|r rest]];
    reflexivity.
Qed.

Lemma interactive_application_short (py_int : str -> option Z)
    (stdin : list str) :
  (List.length stdin < 3)%nat ->
  Interactive.interactive_application py_int stdin = (Raise EOFError, []).
Proof.
  destruct stdin as [|c [|e [|f tail]]]; cbn [List.length];
    [reflexivity | reflexivity | reflexivity | lia].
Qed.

Lemma interactive_application_inv (py_int : str -> option Z)
    (stdin : list str) (app : Application) (rest : list str) :
  Interactive.interactive_application py_int stdin = (Ok app, rest) ->
  exists c e f ls r indices reasons,
    stdin = c :: e :: f :: ls ++ [] :: r :: rest
    /\ Forall (fun l => l <> []) ls
    /\ Interactive.reason_indices_of py_int (split 44 (strip r)) = Ok indices
    /\ Interactive.select_reasons indices = Ok reasons
    /\ app = mkApplication (strip c) (strip e) (or_None (strip f))
               (join nl ls) reasons.
Proof.
  destruct stdin as [|c [|e [|f tail]]]; try discriminate.
  rewrite interactive_application_unfold.
  destruct (Interactive.read_description_lines [] tail) as [out rem] eqn:R.
  apply read_description_lines_inv in R
    as [[-> [-> _]] | [ls [-> [-> F]]]]; [discriminate|].
  destruct rem as [|r rest']; [discriminate|].
  destruct (Interactive.reason_indices_of py_int (split 44 (strip r)))
    as [indices|] eqn:I; [|discriminate].
  destruct (Interactive.select_reasons indices) as [reasons|] eqn:S;
    [|discriminate].
  intros [= <- <-]. now exists c, e, f, ls, r, indices, reasons.
Qed.

Lemma feedback_of_catalog_reasons (application : Application) :
  Forall (fun r => In r (map fst REJECTION_TEMPLATES))
    (rejection_reasons application) ->
  generate_feedback_paragraph application <> unknown_reason_sentence.
Proof.
  intros F H. unfold generate_feedback_paragraph in H.
  destruct (rejection_reasons application) as [|primary_reason rest].
  - apply (f_equal (hd 0)) in H. vm_compute in H. discriminate H.
  - inversion F as [|? ? Hkey _]; subst.
    apply dict_get_key in Hkey as [template_info Hget]. rewrite Hget in H.
    apply (f_equal (hd 0)) in H. vm_compute in H. discriminate H.
Qed.

(** X6. Whatever is typed, an application built by the interactive
    front end has only catalog tags as rejection reasons, never has the
    empty string as founder names, and its feedback paragraph is never
    the sentence for an unknown tag. *)
Theorem interactive_application_invariants :
  forall py_int stdin app rest,
    Interactive.interactive_application py_int stdin = (Ok app, rest) ->
    (forall r, In r (rejection_reasons app) ->
               exists template_info,
                 dict_get r REJECTION_TEMPLATES = Some template_info)
    /\ founder_names app <> Some []
    /\ generate_feedback_paragraph app
         <> lit "The project does not currently align with SAIF's focus on companies building practical technologies that directly improve safety and security in real-world AI systems.".
Proof.
  intros py_int stdin app rest H.
  apply interactive_application_inv in H
    as [c [e [f [ls [r [indices [reasons [_ [_ [_ [S ->]]]]]]]]]]].
  destruct (select_reasons_keys indices) as [reasons' [S' [F _]]].
  rewrite S in S'. injection S' as <-.
  cbn [rejection_reasons founder_names]. repeat split.
  - intros t Ht. apply dict_get_key.
    exact (proj1 (Forall_forall _ _) F t Ht).
  - destruct (strip f); discriminate.
  - now apply feedback_of_catalog_reasons.
Qed.

Lemma interactive_application_invariants_witness :
  Interactive.interactive_application (fun _ => Some 1%Z)
    [lit " Acme "; lit "a@b.c"; lit "  "; lit "AI tool"; []; lit "1"]
  = (Ok (mkApplication (lit "Acme") (lit "a@b.c") None (lit "AI tool")
           [lit "not_ai_safety"]), [])
  /\ generate_feedback_paragraph
       (mkApplication (lit "Acme") (lit "a@b.c") None (lit "AI tool")
          [lit "not_ai_safety"])
     <> unknown_reason_sentence.
Proof.
  assert (E : Interactive.interactive_application (fun _ => Some 1%Z)
                [lit " Acme "; lit "a@b.c"; lit "  "; lit "AI tool"; [];
                 lit "1"]
              = (Ok (mkApplication (lit "Acme") (lit "a@b.c") None
                       (lit "AI tool") [lit "not_ai_safety"]), []))
    by (vm_compute; reflexivity).
  split; [exact E|].
  exact (proj2 (proj2 (interactive_application_invariants _ _ _ _ E))).
Defined.

Lemma lstrip_nil_iff (s : str) : lstrip s = [] <-> forallb isspace s = true.
Proof.
  induction s as [|c s IH]; cbn [lstrip forallb]; [easy|].
  destruct (isspace c); cbn [andb]; [exact IH | split; discriminate].
Qed.

Lemma lstrip_all_space (s : str) :
  forallb isspace (lstrip s) = true -> lstrip s = [].
Proof.
  induction s as [|c s IH]; cbn [lstrip]; [reflexivity|].
  destruct (isspace c) eqn:E; [exact IH|].
  cbn [forallb]. rewrite E. discriminate.
Qed.

Lemma forallb_rev_eq {A : Type} (f : A -> bool) (l : list A) :
  forallb f (rev l) = forallb f l.
Proof.
  induction l as [|a l IH]; [reflexivity|].
  cbn [rev forallb]. rewrite forallb_app, IH. cbn [forallb].
  rewrite andb_true_r. apply andb_comm.
Qed.

Lemma strip_nil_iff (s : str) : strip s = [] <-> forallb isspace s = true.
Proof.
  unfold strip, rstrip. split.
  - intros H. apply (f_equal (@rev char)) in H.
    rewrite rev_involutive in H. cbn [rev] in H.
    apply lstrip_nil_iff in H. rewrite forallb_rev_eq in H.
    apply lstrip_all_space in H. now apply lstrip_nil_iff.
  - intros H. apply lstrip_nil_iff in H. now rewrite H.
Qed.

Lemma email_greeting_prefix (application : Application) :
  Prefix (match founder_names application with
          | Some (c :: n) => lit "Hi " ++ (c :: n) ++ lit ","
          | _ => lit "Hi there,"
          end)
    (generate_rejection_email application).
Proof.
  unfold generate_rejection_email; cbv zeta. eexists; reflexivity.
Qed.

(** X7. In interactive mode the greeting follows the third input line:
    when that line is empty or all whitespace the printed email starts
    with "Hi there,", and otherwise it starts with "Hi ", the line
    without its leading and trailing whitespace, and a comma. *)
Theorem interactive_greeting :
  forall py_int stdin email rest,
    Interactive.interactive_mode py_int stdin = (Ok email, rest) ->
    exists company_line contact_line founder_line tail,
      stdin = company_line :: contact_line :: founder_line :: tail
      /\ (forallb isspace founder_line = true ->
          Prefix (lit "Hi there,") email)
      /\ (forallb isspace founder_line = false ->
          Prefix (lit "Hi " ++ strip founder_line ++ lit ",") email).
Proof.
  intros py_int stdin email rest H.
  unfold Interactive.interactive_mode, Interactive.bind, Interactive.ret in H.
  destruct (Interactive.interactive_application py_int stdin)
    as [[app|x] rest'] eqn:E; [|discriminate H].
  injection H as <- <-.
  apply interactive_application_inv in E
    as [c [e [f [ls [r [indices [reasons [-> [_ [_ [_ ->]]]]]]]]]]].
  exists c, e, f, (ls ++ [] :: r :: rest'). split; [reflexivity|].
  pose proof (email_greeting_prefix
                (mkApplication (strip c) (strip e) (or_None (strip f))
                   (join nl ls) reasons)) as G.
  cbn [founder_names] in G. split; intros Hspace.
  - apply strip_nil_iff in Hspace. rewrite Hspace in G |- *. exact G.
  - destruct (strip f) as [|x s] eqn:Es; [|exact G].
    apply strip_nil_iff in Es. rewrite Es in Hspace. discriminate Hspace.
Qed.

Lemma interactive_greeting_witness :
  Interactive.interactive_mode (fun _ => None)
    [lit "Acme"; lit "a@b.c"; lit "  Ada Lovelace "; lit "AI tool"; []; []]
  = (Ok (generate_rejection_email
           (mkApplication (lit "Acme") (lit "a@b.c")
              (Some (lit "Ada Lovelace")) (lit "AI tool") [])), [])
  /\ exists company_line contact_line founder_line tail,
       [lit "Acme"; lit "a@b.c"; lit "  Ada Lovelace "; lit "AI tool"; []; []]
       = company_line :: contact_line :: founder_line :: tail
       /\ (forallb isspace founder_line = true ->
           Prefix (lit "Hi there,")
             (generate_rejection_email
                (mkApplication (lit "Acme") (lit "a@b.c")
                   (Some (lit "Ada Lovelace")) (lit "AI tool") [])))
       /\ (forallb isspace founder_line = false ->
           Prefix (lit "Hi " ++ strip founder_line ++ lit ",")
             (generate_rejection_email
                (mkApplication (lit "Acme") (lit "a@b.c")
                   (Some (lit "Ada Lovelace")) (lit "AI tool") []))).
Proof.
  assert (E : Interactive.interactive_mode (fun _ => None)
                [lit "Acme"; lit "a@b.c"; lit "  Ada Lovelace ";
                 lit "AI tool"; []; []]
              = (Ok (generate_rejection_email
                       (mkApplication (lit "Acme") (lit "a@b.c")
                          (Some (lit "Ada Lovelace")) (lit "AI tool") [])),
                 []))
    by (vm_compute; reflexivity).
  split; [exact E|].
  exact (interactive_greeting _ _ _ _ E).
Defined.

(** ** Reason numbers that are not numbers *)

Lemma reason_indices_spec (py_int : str -> option Z) (fields : list str) :
  (exists x, In x fields /\ strip x <> [] /\ py_int (strip x) = None)
  /\ Interactive.reason_indices_of py_int fields = Raise ValueError
  \/ exists indices,
       Interactive.reason_indices_of py_int fields = Ok indices
       /\ Forall2 (fun x i => py_int (strip x) = Some (i + 1)%Z)
            (filter (fun x => negb (str_empty (strip x))) fields) indices.
Proof.
  induction fields as [|x fields IH];
    cbn [Interactive.reason_indices_of filter].
  - right. exists []. split; [reflexivity | constructor].
  - destruct (strip x) as [|c s] eqn:Ex; cbn [str_empty negb].
    + destruct IH as [[[y [Hy Hbad]] E] | [indices [E F]]].
      * left. split; [|exact E]. exists y. split; [now right | exact Hbad].
      * right. now exists indices.
    + destruct (py_int (c :: s)) as [n|] eqn:En.
      * destruct IH as [[[y [Hy Hbad]] E] | [indices [E F]]].
        -- left. rewrite E. split; [|reflexivity].
           exists y. split; [now right | exact Hbad].
        -- right. rewrite E. exists ((n - 1)%Z :: indices).
           split; [reflexivity|]. constructor; [|exact F].
           rewrite Ex, En. f_equal. lia.
      * left. split; [|reflexivity]. exists x. rewrite Ex.
        repeat split; [now left | discriminate | exact En].
Qed.

(** X8. The reason line is taken apart at its commas and fields that
    are blank after stripping are skipped.  If [int] rejects any other
    field the whole selection fails with [ValueError], whatever the
    other fields are; if it rejects none, the result has one index per
    non-blank field, in order, each the field's number minus one.  No
    other exception is raised. *)
Theorem reason_indices_value_error :
  forall py_int reason_input,
    (Interactive.reason_indices_of py_int (split 44 reason_input)
     = Raise ValueError
     <-> exists x, In x (split 44 reason_input)
                   /\ strip x <> [] /\ py_int (strip x) = None)
    /\ ((forall x, In x (split 44 reason_input) -> strip x <> [] ->
                   py_int (strip x) <> None)
        <-> exists indices,
              Interactive.reason_indices_of py_int (split 44 reason_input)
              = Ok indices
              /\ Forall2 (fun x i => py_int (strip x) = Some (i + 1)%Z)
                   (filter (fun x => negb (str_empty (strip x)))
                      (split 44 reason_input))
                   indices).
Proof.
  intros py_int reason_input.
  destruct (reason_indices_spec py_int (split 44 reason_input))
    as [[[x [Hx [Hne Hbad]]] E] | [indices [E F]]]; rewrite E.
  - split; split.
    + intros _. now exists x.
    + reflexivity.
    + intros H. exfalso. exact (H x Hx Hne Hbad).
    + intros [indices [E' _]]. discriminate E'.
  - assert (Hgood : forall x, In x (split 44 reason_input) ->
                              strip x <> [] -> py_int (strip x) <> None).
    { intros x Hx Hne Hbad.
      assert (Hin : In x (filter (fun x => negb (str_empty (strip x)))
                            (split 44 reason_input))).
      { apply filter_In. split; [exact Hx|].
        destruct (strip x); [now contradiction Hne | reflexivity]. }
      clear E Hx. induction F as [|y i l l' Hy _ IH]; [contradiction|].
      destruct Hin as [->|Hin]; [congruence | now apply IH]. }
    split; split.
    + discriminate.
    + intros [x [Hx [Hne Hbad]]]. exfalso. exact (Hgood x Hx Hne Hbad).
    + intros _. now exists indices.
    + intros _. exact Hgood.
Qed.

(** ** Outcomes of the interactive front end *)

(** X9. On an input that starts with three lines, goes on with any
    number of non-empty description lines and an empty line, and has
    one more line for the reasons, the interactive front end consumes
    exactly those lines and either fails with [ValueError], because
    [int] rejects a non-blank field of the reason line, or returns an
    application whose company name, contact and founder names are the
    first three lines stripped (a blank founder line giving [None]) and
    whose description is the description lines joined by newlines. *)
Theorem interactive_application_outcome :
  forall (py_int : str -> option Z)
         (company_line contact_line founder_line : str) (lines : list str)
         (reason_line : str) (rest : list str),
    Forall (fun l => l <> []) lines ->
    (Interactive.interactive_application py_int
       (company_line :: contact_line :: founder_line
          :: lines ++ [] :: reason_line :: rest)
     = (Raise ValueError, rest)
     /\ exists x, In x (split 44 (strip reason_line))
                  /\ strip x <> [] /\ py_int (strip x) = None)
    \/ exists reasons,
         Interactive.interactive_application py_int
           (company_line :: contact_line :: founder_line
              :: lines ++ [] :: reason_line :: rest)
         = (Ok (mkApplication (strip company_line) (strip contact_line)
                  (or_None (strip founder_line)) (join nl lines) reasons),
            rest).
Proof.
  intros py_int c e f ls r rest F.
  rewrite interactive_application_unfold.
  rewrite (read_description_lines_stop [] ls (r :: rest) F). cbn [app].
  destruct (reason_indices_spec py_int (split 44 (strip r)))
    as [[Hbad E] | [indices [E _]]]; rewrite E.
  - left. now split.
  - right. destruct (select_reasons_keys indices) as [reasons [S _]].
    rewrite S. now exists reasons.
Qed.

Lemma interactive_application_outcome_witness :
  Interactive.interactive_application (fun _ => None)
    [lit "Acme"; lit "a@b.c"; []; lit "AI"; lit "tool"; []; lit "x,2"; []]
  = (Raise ValueError, [[]]).
Proof.
  destruct (interactive_application_outcome (fun _ => None)
              (lit "Acme") (lit "a@b.c") [] [lit "AI"; lit "tool"]
              (lit "x,2") [[]])
    as [[E _] | [reasons E]].
  - repeat constructor; discriminate.
  - exact E.
  - vm_compute in E. discriminate E.
Defined.

(** X10. The interactive front end fails with [EOFError] exactly when
    the input ends too early: when it does not consist of three lines,
    some non-empty lines, an empty line and at least one more line. *)
Theorem interactive_application_eof :
  forall py_int stdin,
    fst (Interactive.interactive_application py_int stdin) = Raise EOFError
    <-> ~ exists (company_line contact_line founder_line : str)
                 (lines : list str) (reason_line : str) (rest : list str),
            stdin = company_line :: contact_line :: founder_line
                      :: lines ++ [] :: reason_line :: rest
            /\ Forall (fun l => l <> []) lines.
Proof.
  intros py_int stdin. split.
  - intros H [c [e [f [ls [r [rest [-> F]]]]]]].
    rewrite interactive_application_unfold in H.
    rewrite (read_description_lines_stop [] ls (r :: rest) F) in H.
    cbn [app] in H.
    destruct (reason_indices_spec py_int (split 44 (strip r)))
      as [[_ E] | [indices [E _]]]; rewrite E in H; [discriminate H|].
    destruct (select_reasons_keys indices) as [reasons [S _]].
    rewrite S in H. discriminate H.
  - intros H. destruct stdin as [|c [|e [|f tail]]]; try reflexivity.
    rewrite interactive_application_unfold.
    destruct (Interactive.read_description_lines [] tail) as [out rem] eqn:R.
    apply read_description_lines_inv in R
      as [[-> [-> _]] | [ls [-> [-> F]]]]; [reflexivity|].
    destruct rem as [|r rest]; [reflexivity|].
    exfalso. apply H. now exists c, e, f, ls, r, rest.
Qed.

(** ** The command line *)

(** X11. [main] prints the help text exactly when neither [--examples]
    nor [--interactive] is given and the company or the description is
    missing or empty. *)
Theorem main_prints_help_iff :
  forall args,
    Cli.main args = Cli.print_help
    <-> Cli.examples args = false /\ Cli.interactive args = false
        /\ (Cli.company args = None \/ Cli.company args = Some []
            \/ Cli.description args = None \/ Cli.description args = Some []).
Proof.
  intros [ex inter company contact founders text reasons].
  unfold Cli.main. cbn [Cli.examples Cli.interactive Cli.company
                          Cli.description Cli.contact Cli.founders Cli.reason].
  destruct ex; [split; [discriminate | intros [H _]; discriminate H]|].
  destruct inter;
    [split; [discriminate | intros [_ [H _]]; discriminate H]|].
  destruct company as [[|c cs]|]; destruct text as [[|d ds]|]; split;
    try discriminate; try (intros _; repeat split; auto; fail).
  intros [_ [_ [H|[H|[H|H]]]]]; discriminate H.
Qed.

(** X12. When [main] composes an email, no flag was given, the company
    and the description were given and are not empty, and the
    application is built from the arguments as they are, with the empty
    string for a missing or empty contact and no rejection reason when
    [--reason] was not given; in particular the tags of [--reason] are
    passed on unchecked. *)
Theorem main_print_email_application :
  forall args app,
    Cli.main args = Cli.print_email app ->
    Cli.examples args = false /\ Cli.interactive args = false
    /\ Cli.company args = Some (company_name app) /\ company_name app <> []
    /\ Cli.description args = Some (description app) /\ description app <> []
    /\ founder_names app = Cli.founders args
    /\ (Cli.contact args = Some (contact_email app)
        \/ contact_email app = []
           /\ (Cli.contact args = None \/ Cli.contact args = Some []))
    /\ (Cli.reason args = Some (rejection_reasons app)
        \/ rejection_reasons app = [] /\ Cli.reason args = None).
Proof.
  intros [ex inter company contact founders text reasons] app.
  unfold Cli.main. cbn [Cli.examples Cli.interactive Cli.company
                          Cli.description Cli.contact Cli.founders Cli.reason].
  destruct ex; [discriminate|]. destruct inter; [discriminate|].
  destruct company as [[|c cs]|]; try discriminate.
  destruct text as [[|d ds]|]; try discriminate.
  intros [= <-]. cbn [company_name description founder_names contact_email
                        rejection_reasons].
  repeat split; try discriminate.
  - destruct contact as [[|x s]|]; cbn [or_default str_empty]; auto.
  - destruct reasons as [[|x l]|]; cbn [or_default list_empty]; auto.
Qed.

Lemma main_print_email_application_witness :
  Cli.main (Cli.mkNamespace false false (Some (lit "Acme AI")) None None
              (Some (lit "AI productivity tool"))
              (Some [lit "no_such_tag"]))
  = Cli.print_email
      (mkApplication (lit "Acme AI") [] None (lit "AI productivity tool")
         [lit "no_such_tag"])
  /\ company_name
       (mkApplication (lit "Acme AI") [] None (lit "AI productivity tool")
          [lit "no_such_tag"]) <> [].
Proof.
  split; [reflexivity|].
  exact (proj1 (proj2 (proj2 (proj2
    (main_print_email_application
       (Cli.mkNamespace false false (Some (lit "Acme AI")) None None
          (Some (lit "AI productivity tool")) (Some [lit "no_such_tag"]))
       _ eq_refl))))).
Defined.

(** ** The description, line by line *)

Lemma Substring_sep (k a b : str) (c : char) :
  k <> [] -> ~ In c k ->
  (Substring k (a ++ c :: b) <-> Substring k a \/ Substring k b).
Proof.
  intros Hne Hc. split.
  - intros [pre [post H]]. symmetry in H.
    apply app_eq_app in H as [l [[-> H] | [-> H]]].
    + destruct l as [|x l]; cbn [app] in H.
      * destruct k as [|y k]; [now contradiction Hne|].
        injection H as -> _. exfalso. apply Hc. now left.
      * injection H as _ ->. right. now exists l, post.
    + apply app_eq_app in H as [l2 [[-> H] | [-> H]]].
      * destruct l2 as [|x l2]; cbn [app] in H.
        -- left. exists pre, []. now rewrite !app_nil_r.
        -- injection H as -> _. exfalso. apply Hc.
           apply in_or_app. right. now left.
      * left. now exists pre, l2.
  - intros [[pre [post ->]] | [pre [post ->]]].
    + exists pre, (post ++ c :: b). now rewrite <- !app_assoc.
    + exists (a ++ c :: pre), post. now rewrite <- app_assoc.
Qed.

Lemma Substring_join (k : str) (lines : list str) :
  k <> [] -> ~ In 10 k ->
  (Substring k (join nl lines) <-> exists line, In line lines /\ Substring k line).
Proof.
  intros Hne Hnl. induction lines as [|x lines IH].
  - cbn [join]. split.
    + intros [[|? ?] [post H]]; destruct k; try discriminate H.
      now contradiction Hne.
    + intros [line [[] _]].
  - cbn [join]. destruct lines as [|y lines].
    + split.
      * intros H. exists x. split; [now left | exact H].
      * intros [line [[<-|[]] H]]. exact H.
    + change (x ++ nl ++ join nl (y :: lines))
        with (x ++ 10 :: join nl (y :: lines)).
      rewrite (Substring_sep k x _ 10 Hne Hnl), IH. split.
      * intros [H | [line [Hin H]]].
        -- exists x. split; [now left | exact H].
        -- exists line. split; [now right | exact H].
      * intros [line [[<-|Hin] H]]; [now left|].
        right. now exists line.
Qed.

Lemma lower_join (lines : list str) :
  lower (join nl lines) = join nl (map lower lines).
Proof.
  induction lines as [|x lines IH]; [reflexivity|].
  cbn [join map]. destruct lines as [|y lines]; [reflexivity|].
  rewrite !lower_app, IH. reflexivity.
Qed.

Lemma Substring_lower_join (k : str) (lines : list str) :
  k <> [] -> ~ In 10 k ->
  (Substring k (lower (join nl lines))
   <-> exists line, In line lines /\ Substring k (lower line)).
Proof.
  intros Hne Hnl. rewrite lower_join, (Substring_join k _ Hne Hnl). split.
  - intros [l [Hin H]]. apply in_map_iff in Hin as [line [<- Hin]].
    now exists line.
  - intros [line [Hin H]]. exists (lower line). split; [|exact H].
    now apply in_map.
Qed.

(** X13. A description made of lines joined by newlines, as the
    interactive front end builds it, is searched line by line: the wish
    is "building the company" exactly when some single line contains
    "building" or "develop", in any letter case; a keyword broken
    across two lines is not found. *)
Theorem closing_wish_line_by_line :
  forall application lines,
    description application = join nl lines ->
    (get_closing_wish application = lit "building the company"
     <-> exists line,
           In line lines
           /\ (Substring (lit "building") (lower line)
               \/ Substring (lit "develop") (lower line))).
Proof.
  intros application lines Hdesc.
  rewrite closing_wish_building_iff, Hdesc.
  rewrite (Substring_lower_join (lit "building")),
    (Substring_lower_join (lit "develop"));
    try discriminate; try (intros H; apply In_existsb in H;
                           vm_compute in H; discriminate H).
  split.
  - intros [[line [Hin H]] | [line [Hin H]]]; exists line; auto.
  - intros [line [Hin [H|H]]]; [left|right]; now exists line.
Qed.

Lemma closing_wish_line_by_line_witness :
  get_closing_wish
    (mkApplication [] [] None (lit "We are buil" ++ nl ++ lit "ding tools") [])
  <> lit "building the company"
  /\ get_closing_wish
       (mkApplication [] [] None (lit "We are" ++ nl ++ lit "BUILDING tools") [])
     = lit "building the company".
Proof.
  split.
  - intros H.
    apply (closing_wish_line_by_line
             (mkApplication [] [] None
                (lit "We are buil" ++ nl ++ lit "ding tools") [])
             [lit "We are buil"; lit "ding tools"] eq_refl) in H.
    destruct H as [line [[<-|[<-|[]]] [H|H]]];
      apply str_in_Substring in H; vm_compute in H; discriminate H.
  - apply (closing_wish_line_by_line
             (mkApplication [] [] None
                (lit "We are" ++ nl ++ lit "BUILDING tools") [])
             [lit "We are"; lit "BUILDING tools"] eq_refl).
    exists (lit "BUILDING tools"). split; [now right; left|].
    left. apply str_in_Substring. vm_compute. reflexivity.
Defined.

(** ** The example emails *)

Lemma endswith_Suffix (s p : str) : endswith s p = true <-> Suffix p s.
Proof.
  unfold endswith, Suffix. rewrite startswith_Prefix. unfold Prefix. split.
  - intros [r H]. exists (rev r).
    apply (f_equal (@rev char)) in H.
    now rewrite rev_involutive, rev_app_distr, rev_involutive in H.
  - intros [front ->]. exists (rev front). apply rev_app_distr.
Qed.

Lemma Suffix_app (p front s : str) : Suffix p s -> Suffix p (front ++ s).
Proof.
  intros [f ->]. exists (front ++ f). apply app_assoc.
Qed.

Lemma email_closing_suffix (application : Application) :
  exists phrase,
    In phrase closing_phrases
    /\ Suffix (lit "We wish you the best as you continue " ++ phrase
                 ++ lit "." ++ nl ++ nl ++ lit "Best," ++ nl
                 ++ lit "The SAIF Team")
         (generate_rejection_email application).
Proof.
  exists (get_closing_wish application).
  split; [apply get_closing_wish_phrase|].
  unfold generate_rejection_email; cbv zeta.
  do 9 apply Suffix_app. now exists [].
Qed.

(** X14. The generator never reproduces an example email: for every
    application its email differs from each of the three emails that
    [print_examples] shows, because none of them ends with one of the
    closing sentences that the generator can write. *)
Theorem email_is_no_example :
  forall application example,
    In example examples ->
    generate_rejection_email application <> example_email example.
Proof.
  intros application example Hin Heq.
  destruct (email_closing_suffix application) as [phrase [Hphrase Hsuffix]].
  rewrite Heq in Hsuffix. apply endswith_Suffix in Hsuffix.
  unfold closing_phrases in Hphrase. cbn [In] in Hphrase.
  unfold examples in Hin. cbn [In] in Hin.
  destruct Hin as [<-|[<-|[<-|[]]]];
    destruct Hphrase as [<-|[<-|[<-|[<-|[<-|[]]]]]];
    vm_compute in Hsuffix; discriminate Hsuffix.
Qed.

Lemma email_is_no_example_witness :
  In example_3 examples
  /\ generate_rejection_email
       (mkApplication (lit "VAITION") [] (Some (lit "Vadim"))
          (lit "human presence and trust") [lit "too_conceptual"])
     <> example_email example_3.
Proof.
  assert (Hin : In example_3 examples) by (do 2 right; now left).
  split; [exact Hin|].
  exact (email_is_no_example _ example_3 Hin).
Defined.
